(** * ar-qna-client: image capture, submission and answer rendering

    A shallow embedding of the [ImageUploader] component
    (src/App.tsx, second document of the file) and of [ResponseRenderer]
    (src/components/ResponseRenderer.tsx), with the properties of the
    capture / submit / present exchange stated over it. *)

From Stdlib Require Import List Bool Arith NArith String Ascii Lia.
Import ListNotations.

Set Warnings "-register-all".

(** ** JavaScript strings

    A JS string is a sequence of UTF-16 code units.  Literals of the
    source are ASCII and are written with [lit]. *)

Definition jsstring := list N.

Definition lit (s : string) : jsstring :=
  map N_of_ascii (list_ascii_of_string s).

Definition jsstring_eqb (a b : jsstring) : bool :=
  if list_eq_dec N.eq_dec a b then true else false.

(** ECMAScript [WhiteSpace] and [LineTerminator] code points, the ones
    [String.prototype.trim] strips: TAB, LF, VT, FF, CR, SP, NBSP,
    U+1680, U+2000..U+200A, LS, PS, U+202F, U+205F, U+3000 and BOM. *)
Definition is_ws (c : N) : bool :=
  (((9 <=? c) && (c <=? 13)) || (c =? 32) || (c =? 160) || (c =? 5760)
   || ((8192 <=? c) && (c <=? 8202)) || (c =? 8232) || (c =? 8233)
   || (c =? 8239) || (c =? 8287) || (c =? 12288) || (c =? 65279))%N.

Fixpoint trimStart (s : jsstring) : jsstring :=
  match s with
  | [] => []
  | c :: r => if is_ws c then trimStart r else s
  end.

Definition trimEnd (s : jsstring) : jsstring := rev (trimStart (rev s)).

Definition trim (s : jsstring) : jsstring := trimEnd (trimStart s).

(** ** The answer record (interface [Answer] / [AnswerData]) *)

Inductive Status := StatusSuccess | StatusError.

Record Answer := mkAnswer {
  status : Status;
  answer : jsstring;
  diagram : option jsstring      (* [diagram?: string] *)
}.

(** ** Rendered output

    The element tree a component returns.  Child components that are
    not expanded further are leaves carrying their props. *)

Inductive vnode :=
| El (tag : string) (className : string) (children : list vnode)
| Txt (text : jsstring)
| SVGRenderer (svgContent : jsstring)
| LatexRenderer (content : jsstring)
| LoadingBlock
| Img (src : jsstring)
| Video
| Button (label : string)
| FileInput.

(** [cond b n] is the JSX idiom [{b && n}]: nothing is rendered for
    [false]. *)
Definition cond (b : bool) (n : vnode) : list vnode :=
  if b then [n] else [].

(** [!!x] for an optional string: [undefined] and [""] are falsy. *)
Definition truthy (x : option jsstring) : bool :=
  match x with
  | Some (_ :: _) => true
  | _ => false
  end.

(** [x || ''] *)
Definition or_empty (x : option jsstring) : jsstring :=
  match x with
  | Some (c :: r) => c :: r
  | _ => []
  end.

(** [!!data.diagram && data.diagram.trim().length > 0] *)
Definition hasDiagram (data : Answer) : bool :=
  truthy (diagram data) &&
  match diagram data with
  | Some d => 0 <? List.length (trim d)
  | None => false
  end.

(** src/components/ResponseRenderer.tsx *)
Definition ResponseRenderer (data : Answer) : vnode :=
  El "div" "response-content w-full"
    (cond (hasDiagram data)
       (El "div" "diagram-section mb-4"
          [ El "h4" "text-base md:text-lg font-semibold text-blue-600 mb-2 md:mb-3"
              [Txt (lit "Diagram")];
            El "div" "w-full overflow-x-auto"
              [SVGRenderer (or_empty (diagram data))] ])
     ++
     [ El "div" "answer-section"
         (cond (hasDiagram data)
            (El "h4" "text-base md:text-lg font-semibold text-blue-600 mb-2 md:mb-3"
               [Txt (lit "Explanation")])
          ++
          [ El "div" "w-full overflow-x-auto text-sm md:text-base"
              [LatexRenderer (answer data)] ]) ]).

(** The earlier revision of the same component (unnamed part 002): same
    decisions, other class names, no scrolling wrappers. *)
Definition ResponseRenderer_rev0 (data : Answer) : vnode :=
  El "div" "response-content"
    (cond (hasDiagram data)
       (El "div" "diagram-section mb-4"
          [ El "h4" "text-lg font-semibold text-blue-600 mb-3"
              [Txt (lit "Diagram")];
            SVGRenderer (or_empty (diagram data)) ])
     ++
     [ El "div" "answer-section"
         (cond (hasDiagram data)
            (El "h4" "text-lg font-semibold text-blue-600 mb-3"
               [Txt (lit "Explanation")])
          ++
          [ LatexRenderer (answer data) ]) ]).

(** *** Observing a tree

    What a reader of the page sees, in document order: section labels
    (the [h4] headings), diagrams handed to the vector renderer, and
    texts handed to the math/markup renderer. *)

Inductive piece :=
| Label (text : jsstring)
| Diagram (svg : jsstring)
| AnswerText (content : jsstring)
| Spinner.

Fixpoint text_of (n : vnode) : jsstring :=
  match n with
  | Txt t => t
  | El _ _ ch => flat_map text_of ch
  | _ => []
  end.

(** Each piece comes with the class names of the elements around it,
    outermost first: the visual treatment it is shown in. *)
Fixpoint styled (ctx : list string) (n : vnode) : list (list string * piece) :=
  match n with
  | El tag cls ch =>
      if String.eqb tag "h4" then [(ctx, Label (flat_map text_of ch))]
      else flat_map (styled (ctx ++ [cls])) ch
  | SVGRenderer s => [(ctx, Diagram s)]
  | LatexRenderer c => [(ctx, AnswerText c)]
  | LoadingBlock => [(ctx, Spinner)]
  | _ => []
  end.

Definition pieces (n : vnode) : list piece := map snd (styled [] n).

Definition is_label (t : jsstring) (p : piece) : bool :=
  match p with
  | Label t' => jsstring_eqb t t'
  | _ => false
  end.

Definition is_diagram (p : piece) : bool :=
  match p with
  | Diagram _ => true
  | _ => false
  end.

(** The vector renderer is invoked somewhere in the tree. *)
Definition renders_diagram (n : vnode) : bool := existsb is_diagram (pieces n).

Definition has_label (t : string) (n : vnode) : bool :=
  existsb (is_label (lit t)) (pieces n).

(** "Blank" in the words of the specification: absent, empty, or made
    of white space only. *)
Definition blank (d : option jsstring) : bool :=
  match d with
  | None => true
  | Some s => forallb is_ws s
  end.

(** ** Browser objects used by [ImageUploader] *)

Record Blob := mkBlob { blob_type : jsstring; blob_bytes : list N }.

Inductive FormValue := FBlob (b : Blob) | FText (s : jsstring).

(** [FormData]: the appended entries, in order. *)
Definition FormData := list (jsstring * FormValue).

(** A [MediaStream] is known by the ids of its tracks. *)
Definition MediaStream := list nat.

Record VideoElement := mkVideo { srcObject : option MediaStream }.

(** How the promise of [axios.post] settles: with [response.data], or
    rejected with an error. *)
Inductive AxiosResult := Resolved (data : Answer) | Rejected (error : jsstring).

Inductive Exn :=
| TypeError (msg : jsstring)
| DOMException (msg : jsstring)
| AxiosError (msg : jsstring).

Inductive Logged := LText (s : jsstring) | LBlob (type : jsstring) (size : nat).

(** What a handler does, in program order. *)
Inductive Effect :=
| SetSelectedImage (url : jsstring)
| SetAnswer (a : option Answer)
| SetLoading (b : bool)
| SetShowCamera (b : bool)
| SetSrcObject (s : MediaStream)
| ReadAsDataURL (file : Blob)
| GetUserMedia
| ToBlob
| TrackStop (t : nat)
| AxiosPost (id : nat) (url : jsstring) (body : FormData)
| ConsoleLog (args : list Logged)
| ConsoleError (msg : jsstring) (e : Exn)
| Uncaught (e : Exn).

(** ** The state of the page

    The four [useState] cells of [ImageUploader], the [videoRef] cell,
    and what the browser holds on the component's behalf: tracks already
    stopped, streams handed out by [getUserMedia], requests in flight,
    promises and callbacks not yet settled.  [trace] records every
    effect performed so far.  The state cell [answer] is [answer_st]
    here, [answer] being the field of [Answer]. *)
Record World := mkWorld {
  selectedImage : option jsstring;
  answer_st : option Answer;
  loading : bool;
  showCamera : bool;
  videoRef : option VideoElement;
  stopped : list nat;
  acquired : list MediaStream;
  inflight : list (nat * FormData);
  nextId : nat;
  pendingMedia : nat;
  pendingBlob : nat;
  pendingReads : nat;
  trace : list Effect
}.

Definition initial : World :=
  mkWorld None None false false None [] [] [] 0 0 0 0 [].

Definition with_selectedImage (x : option jsstring) (w : World) : World :=
  mkWorld x (answer_st w) (loading w) (showCamera w) (videoRef w) (stopped w)
    (acquired w) (inflight w) (nextId w) (pendingMedia w) (pendingBlob w)
    (pendingReads w) (trace w).

Definition with_answer (x : option Answer) (w : World) : World :=
  mkWorld (selectedImage w) x (loading w) (showCamera w) (videoRef w) (stopped w)
    (acquired w) (inflight w) (nextId w) (pendingMedia w) (pendingBlob w)
    (pendingReads w) (trace w).

Definition with_loading (x : bool) (w : World) : World :=
  mkWorld (selectedImage w) (answer_st w) x (showCamera w) (videoRef w) (stopped w)
    (acquired w) (inflight w) (nextId w) (pendingMedia w) (pendingBlob w)
    (pendingReads w) (trace w).

Definition with_showCamera (x : bool) (w : World) : World :=
  mkWorld (selectedImage w) (answer_st w) (loading w) x (videoRef w) (stopped w)
    (acquired w) (inflight w) (nextId w) (pendingMedia w) (pendingBlob w)
    (pendingReads w) (trace w).

Definition with_videoRef (x : option VideoElement) (w : World) : World :=
  mkWorld (selectedImage w) (answer_st w) (loading w) (showCamera w) x (stopped w)
    (acquired w) (inflight w) (nextId w) (pendingMedia w) (pendingBlob w)
    (pendingReads w) (trace w).

Definition with_stopped (x : list nat) (w : World) : World :=
  mkWorld (selectedImage w) (answer_st w) (loading w) (showCamera w) (videoRef w) x
    (acquired w) (inflight w) (nextId w) (pendingMedia w) (pendingBlob w)
    (pendingReads w) (trace w).

Definition with_acquired (x : list MediaStream) (w : World) : World :=
  mkWorld (selectedImage w) (answer_st w) (loading w) (showCamera w) (videoRef w)
    (stopped w) x (inflight w) (nextId w) (pendingMedia w) (pendingBlob w)
    (pendingReads w) (trace w).

Definition with_requests (x : list (nat * FormData)) (n : nat) (w : World) : World :=
  mkWorld (selectedImage w) (answer_st w) (loading w) (showCamera w) (videoRef w)
    (stopped w) (acquired w) x n (pendingMedia w) (pendingBlob w)
    (pendingReads w) (trace w).

Definition with_pendingMedia (x : nat) (w : World) : World :=
  mkWorld (selectedImage w) (answer_st w) (loading w) (showCamera w) (videoRef w)
    (stopped w) (acquired w) (inflight w) (nextId w) x (pendingBlob w)
    (pendingReads w) (trace w).

Definition with_pendingBlob (x : nat) (w : World) : World :=
  mkWorld (selectedImage w) (answer_st w) (loading w) (showCamera w) (videoRef w)
    (stopped w) (acquired w) (inflight w) (nextId w) (pendingMedia w) x
    (pendingReads w) (trace w).

Definition with_pendingReads (x : nat) (w : World) : World :=
  mkWorld (selectedImage w) (answer_st w) (loading w) (showCamera w) (videoRef w)
    (stopped w) (acquired w) (inflight w) (nextId w) (pendingMedia w)
    (pendingBlob w) x (trace w).

Definition with_trace (x : list Effect) (w : World) : World :=
  mkWorld (selectedImage w) (answer_st w) (loading w) (showCamera w) (videoRef w)
    (stopped w) (acquired w) (inflight w) (nextId w) (pendingMedia w)
    (pendingBlob w) (pendingReads w) x.

(** ** Handlers as state transformers that may throw *)

Inductive Result (A : Type) := Ok (a : A) | Throw (e : Exn).
Arguments Ok {A} a.
Arguments Throw {A} e.

Definition M (A : Type) := World -> Result A * World.

Definition ret {A} (a : A) : M A := fun w => (Ok a, w).

Definition bind {A B} (c : M A) (k : A -> M B) : M B :=
  fun w =>
    match c w with
    | (Ok a, w1) => k a w1
    | (Throw e, w1) => (Throw e, w1)
    end.

Definition throw {A} (e : Exn) : M A := fun w => (Throw e, w).

Notation "x <- c ;; k" := (bind c (fun x => k))
  (at level 61, c at next level, right associativity).
Notation "c ;; k" := (bind c (fun _ => k))
  (at level 61, right associativity).

(** [try { body } catch (error) { handler error }] *)
Definition try_catch {A} (body : M A) (handler : Exn -> M A) : M A :=
  fun w =>
    match body w with
    | (Ok a, w1) => (Ok a, w1)
    | (Throw e, w1) => handler e w1
    end.

(** [... finally { fin }]: [fin] runs however the block left off. *)
Definition finally_ {A} (c : M A) (fin : M unit) : M A :=
  fun w =>
    match c w with
    | (r, w1) =>
        match fin w1 with
        | (Ok _, w2) => (r, w2)
        | (Throw e, w2) => (Throw e, w2)
        end
    end.

Fixpoint forEach {A} (l : list A) (f : A -> M unit) : M unit :=
  match l with
  | [] => ret tt
  | x :: r => f x ;; forEach r f
  end.

Definition emit (e : Effect) : M unit :=
  fun w => (Ok tt, with_trace (trace w ++ [e]) w).

(** The state setters.  No handler reads a state cell back, so it makes
    no difference that React applies the updates of one handler
    together when the handler yields. *)
Definition setSelectedImage (url : jsstring) : M unit :=
  fun w => emit (SetSelectedImage url) (with_selectedImage (Some url) w).

Definition setAnswer (a : option Answer) : M unit :=
  fun w => emit (SetAnswer a) (with_answer a w).

Definition setLoading (b : bool) : M unit :=
  fun w => emit (SetLoading b) (with_loading b w).

Definition setShowCamera (b : bool) : M unit :=
  fun w => emit (SetShowCamera b) (with_showCamera b w).

(** [videoRef.current] *)
Definition videoRef_current : M (option VideoElement) :=
  fun w => (Ok (videoRef w), w).

(** [videoRef.current.srcObject = stream] *)
Definition set_srcObject (stream : MediaStream) : M unit :=
  fun w => emit (SetSrcObject stream) (with_videoRef (Some (mkVideo (Some stream))) w).

(** [reader.readAsDataURL(file)]: the load ends later. *)
Definition readAsDataURL (file : Blob) : M unit :=
  fun w => emit (ReadAsDataURL file) (with_pendingReads (S (pendingReads w)) w).

(** [navigator.mediaDevices.getUserMedia(...)]: settles later. *)
Definition getUserMedia : M unit :=
  fun w => emit GetUserMedia (with_pendingMedia (S (pendingMedia w)) w).

(** [canvas.toBlob(callback, 'image/jpeg')]: the callback runs later. *)
Definition toBlob : M unit :=
  fun w => emit ToBlob (with_pendingBlob (S (pendingBlob w)) w).

(** [track.stop()] *)
Definition track_stop (t : nat) : M unit :=
  fun w => emit (TrackStop t) (with_stopped (t :: stopped w) w).

(** [axios.post(url, body, ...)]: a request goes out; its promise
    settles later. *)
Definition axios_post (url : jsstring) (body : FormData) : M unit :=
  fun w =>
    emit (AxiosPost (nextId w) url body)
      (with_requests (inflight w ++ [(nextId w, body)]) (S (nextId w)) w).

Definition console_log (args : list Logged) : M unit := emit (ConsoleLog args).

Definition console_error (msg : jsstring) (e : Exn) : M unit :=
  emit (ConsoleError msg e).

(** ** The handlers of [ImageUploader] (src/App.tsx)

    An [async] function runs up to its first pending [await] in one go
    and continues when the awaited promise settles; each such stretch is
    one definition. *)

Definition QUESTION : jsstring :=
  lit "Can you review this image and solve the question with step by step reasoning?".

Definition FAILED : Answer :=
  mkAnswer StatusError (lit "Failed to process the image. Please try again.") None.

(** The debugging loop over [formData.entries()].  The size is logged
    in bytes here rather than formatted in KB. *)
Definition logged_of (kv : jsstring * FormValue) : list Logged :=
  match snd kv with
  | FBlob b => [LText (fst kv ++ lit ":"); LBlob (blob_type b) (List.length (blob_bytes b))]
  | FText t => [LText (fst kv ++ lit ":"); LText t]
  end.

(** [uploadImage], up to [await axios.post(...)] *)
Definition uploadImage (file : Blob) : M unit :=
  setLoading true ;;
  let formData := [(lit "image", FBlob file); (lit "question", FText QUESTION)] in
  console_log [LText (lit "FormData contents:")] ;;
  forEach formData (fun kv => console_log (logged_of kv)) ;;
  axios_post (lit "/ask") formData.

(** [uploadImage], from the moment the promise of [axios.post]
    settles: the rest of the [try], the [catch] and the [finally]. *)
Definition uploadImage_settled (r : AxiosResult) : M unit :=
  finally_
    (try_catch
       match r with
       | Resolved data => setAnswer (Some data)
       | Rejected error => throw (AxiosError error)
       end
       (fun error =>
          console_error (lit "Error uploading image:") error ;;
          setAnswer (Some FAILED)))
    (setLoading false).

(** [handleFileSelect]; [files] is [event.target.files]. *)
Definition handleFileSelect (files : list Blob) : M unit :=
  match hd_error files with
  | Some file =>
      setAnswer None ;;
      setLoading true ;;
      readAsDataURL file ;;
      uploadImage file
  | None => ret tt
  end.

(** [reader.onloadend] *)
Definition reader_onloadend (result : jsstring) : M unit :=
  setSelectedImage result.

(** [startCamera], up to [await getUserMedia(...)] *)
Definition startCamera : M unit := getUserMedia.

(** [startCamera], from the moment [getUserMedia] settles *)
Definition startCamera_settled (r : MediaStream + jsstring) : M unit :=
  try_catch
    match r with
    | inl stream =>
        v <- videoRef_current ;;
        match v with
        | Some _ => set_srcObject stream
        | None => ret tt
        end ;;
        setShowCamera true ;;
        setAnswer None
    | inr msg => throw (DOMException msg)
    end
    (fun error => console_error (lit "Error accessing camera:") error).

(** [captureImage].  Drawing the frame into the canvas changes nothing
    that is kept here; [stream.getTracks()] on a [null] stream is a
    [TypeError]. *)
Definition captureImage : M unit :=
  v <- videoRef_current ;;
  match v with
  | Some video =>
      setAnswer None ;;
      setLoading true ;;
      toBlob ;;
      match srcObject video with
      | Some stream => forEach stream track_stop
      | None => throw (TypeError (lit "Cannot read properties of null (reading 'getTracks')"))
      end ;;
      setShowCamera false
  | None => ret tt
  end.

(** The callback given to [canvas.toBlob], up to [await uploadImage];
    [dataURL] is what [canvas.toDataURL('image/jpeg')] returns. *)
Definition toBlob_callback (blob : option Blob) (dataURL : jsstring) : M unit :=
  match blob with
  | Some b => setSelectedImage dataURL ;; uploadImage b
  | None => ret tt
  end.

(** ** What [ImageUploader] returns *)

Definition answer_class (a : Answer) : string :=
  String.append "p-3 md:p-4 rounded-lg mt-2 "
    match status a with
    | StatusError => "bg-red-100 text-red-700"
    | StatusSuccess => "bg-green-100 text-green-700"
    end.

Definition ImageUploader (w : World) : vnode :=
  El "div" "bg-white rounded-lg shadow-lg p-4 md:p-6 w-full"
    ([ El "h2" "text-xl md:text-2xl font-bold mb-4 text-center"
         [Txt (lit "Multimodal QnA Agent")];
       if showCamera w
       then El "div" "relative" [Video; Button "Capture"]
       else El "div" "space-y-4"
              ([ El "div" "flex justify-center gap-3 md:gap-4"
                   [Button "Choose File"; Button "Take Photo"];
                 FileInput ]
               ++ match selectedImage w with
                  | Some (c :: r) => [El "div" "mt-4" [Img (c :: r)]]
                  | _ => []
                  end) ]
     ++ cond (loading w) LoadingBlock
     ++ match answer_st w with
        | Some a =>
            [ El "div" "mt-4"
                [ El "h3" "font-semibold text-base md:text-lg" [Txt (lit "Answer:")];
                  El "div" (answer_class a) [ResponseRenderer a] ] ]
        | None => []
        end).

(** [videoRef] after React has rendered: the [<video ref={videoRef}>]
    element exists only in the [showCamera] branch above.  It is kept
    across renders while shown, created afresh (no [srcObject]) when the
    branch is entered, and the ref is [null] otherwise. *)
Definition commit (w : World) : World :=
  with_videoRef
    (if showCamera w
     then match videoRef w with
          | Some v => Some v
          | None => Some (mkVideo None)
          end
     else None) w.

(** ** The event loop *)

Inductive Event :=
| ChooseFile (files : list Blob)           (* [onChange] of the file input *)
| ClickTakePhoto
| MediaSettled (r : MediaStream + jsstring) (* [getUserMedia] settles *)
| ClickCapture
| ToBlobDone (blob : option Blob) (dataURL : jsstring)
| PostSettled (id : nat) (r : AxiosResult)  (* [axios.post] settles *)
| ReaderLoadEnd (result : jsstring).

(** One turn of the event loop: the handler runs, an exception nobody
    caught is reported, React renders. *)
Definition run_handler (h : M unit) (w : World) : World :=
  match h w with
  | (Ok _, w1) => commit w1
  | (Throw e, w1) => commit (with_trace (trace w1 ++ [Uncaught e]) w1)
  end.

Definition is_inflight (id : nat) (w : World) : bool :=
  existsb (fun r => Nat.eqb (fst r) id) (inflight w).

Definition settle (id : nat) (w : World) : World :=
  with_requests
    (filter (fun r => negb (Nat.eqb (fst r) id)) (inflight w)) (nextId w) w.

Definition note_acquired (r : MediaStream + jsstring) (w : World) : World :=
  match r with
  | inl stream => with_acquired (acquired w ++ [stream]) w
  | inr _ => w
  end.

(** [step w ev] is [None] when [ev] cannot happen in [w]: the control
    is not on the page, or nothing of that kind is pending. *)
Definition step (w : World) (ev : Event) : option World :=
  match ev with
  | ChooseFile files =>
      if showCamera w then None
      else Some (run_handler (handleFileSelect files) w)
  | ClickTakePhoto =>
      if showCamera w then None
      else Some (run_handler startCamera w)
  | MediaSettled r =>
      match pendingMedia w with
      | 0 => None
      | S n => Some (run_handler (startCamera_settled r)
                       (note_acquired r (with_pendingMedia n w)))
      end
  | ClickCapture =>
      if showCamera w then Some (run_handler captureImage w) else None
  | ToBlobDone blob url =>
      match pendingBlob w with
      | 0 => None
      | S n => Some (run_handler (toBlob_callback blob url) (with_pendingBlob n w))
      end
  | PostSettled id r =>
      if is_inflight id w
      then Some (run_handler (uploadImage_settled r) (settle id w))
      else None
  | ReaderLoadEnd result =>
      match pendingReads w with
      | 0 => None
      | S n => Some (run_handler (reader_onloadend result) (with_pendingReads n w))
      end
  end.

Fixpoint run (w : World) (evs : list Event) : option World :=
  match evs with
  | [] => Some w
  | ev :: r =>
      match step w ev with
      | Some w1 => run w1 r
      | None => None
      end
  end.

(** ** Observations *)

(** Every track of [stream] has been stopped. *)
Definition all_stopped (stream : MediaStream) (w : World) : bool :=
  forallb (fun t => existsb (Nat.eqb t) (stopped w)) stream.

(** The effects performed between [w] and a later [w']. *)
Definition emitted (w w' : World) : list Effect :=
  skipn (List.length (trace w)) (trace w').

Definition is_post (e : Effect) : bool :=
  match e with
  | AxiosPost _ _ _ => true
  | _ => false
  end.

(** The requests sent among some effects. *)
Definition posts (l : list Effect) : list Effect := filter is_post l.

(** The page after [evs], started afresh. *)
Definition after (evs : list Event) : World :=
  match run initial evs with
  | Some w => w
  | None => initial
  end.

(** The camera view is open: "Take Photo" was clicked and
    [getUserMedia] gave a stream with tracks 7 and 8. *)
Definition camera_open : World :=
  after [ClickTakePhoto; MediaSettled (inl [7; 8])].

(** The camera view is open with a stream attached: two clicks on
    "Take Photo", the second stream found the video element. *)
Definition camera_attached : World :=
  after [ClickTakePhoto; ClickTakePhoto;
         MediaSettled (inl [0; 1]); MediaSettled (inl [2])].

(** What is sent is what the code of [uploadImage] sends: the fixed
    endpoint, and a form whose [question] entry is [QUESTION]. *)
Definition well_formed_post (e : Effect) : Prop :=
  match e with
  | AxiosPost _ url body =>
      url = lit "/ask" /\ exists file,
        body = [(lit "image", FBlob file); (lit "question", FText QUESTION)]
  | _ => True
  end.

(** The [question] entry of a form. *)
Definition question_of (body : FormData) : option FormValue :=
  match find (fun kv => jsstring_eqb (fst kv) (lit "question")) body with
  | Some kv => Some (snd kv)
  | None => None
  end.

Definition contains (token cls : string) : bool :=
  match String.index 0 token cls with
  | Some _ => true
  | None => false
  end.

(** The red treatment [ImageUploader] gives to an error. *)
Definition error_treatment (ctx : list string) : bool :=
  existsb (fun cls => contains "bg-red-100" cls && contains "text-red-700" cls) ctx.

Definition is_answer_text (p : piece) : bool :=
  match p with
  | AnswerText _ => true
  | _ => false
  end.

(** Events that hand a new image to [uploadImage]. *)
Definition starts_submission (ev : Event) : bool :=
  match ev with
  | ChooseFile (_ :: _) => true
  | ToBlobDone (Some _) _ => true
  | _ => false
  end.

(** The form [uploadImage] builds for [file]. *)
Definition form_of (file : Blob) : FormData :=
  [(lit "image", FBlob file); (lit "question", FText QUESTION)].


Definition quiet (evs : list Event) : bool :=
  forallb (fun ev => negb (starts_submission ev)) evs.

(** Sample data for the examples below. *)
Definition sample_blob : Blob := mkBlob (lit "image/jpeg") [255; 216; 255; 224]%N.
Definition other_blob : Blob := mkBlob (lit "image/png") [137; 80; 78; 71]%N.
Definition sample_svg : jsstring := lit "<svg xmlns='http://www.w3.org/2000/svg'/>".
Definition error_with_diagram : Answer :=
  mkAnswer StatusError (lit "No solution found.") (Some sample_svg).
Definition success_with_diagram : Answer :=
  mkAnswer StatusSuccess (lit "See diagram.") (Some sample_svg).
Definition success_plain : Answer :=
  mkAnswer StatusSuccess (lit "The answer is $x=2$.") None.

(** How many of [evs] hand a new image to [uploadImage]. *)
Definition submissions (evs : list Event) : nat :=
  List.length (filter starts_submission evs).

(** A request is in flight while an earlier result is on the page: a
    file was chosen, then the camera opened and Capture clicked, then
    the first request came back. *)
Definition stale_result : World :=
  after [ChooseFile [sample_blob]; ClickTakePhoto; MediaSettled (inl [7; 8]);
         ClickCapture; PostSettled 0 (Resolved success_plain)].

(** ** String searching ([indexOf], [includes], [startsWith], ...) *)

Fixpoint startsWith (pat s : jsstring) : bool :=
  match pat, s with
  | [], _ => true
  | p :: pr, c :: r => N.eqb p c && startsWith pr r
  | _ :: _, [] => false
  end.

Definition endsWith (pat s : jsstring) : bool := startsWith (rev pat) (rev s).

(** [s.indexOf(pat)], [None] for -1 *)
Fixpoint indexOf (pat s : jsstring) : option nat :=
  if startsWith pat s then Some 0
  else match s with
       | [] => None
       | _ :: r => option_map S (indexOf pat r)
       end.

Definition includes (pat s : jsstring) : bool :=
  match indexOf pat s with
  | Some _ => true
  | None => false
  end.

(** [s.slice(from, -back)] *)
Definition slice (from back : nat) (s : jsstring) : jsstring :=
  firstn (List.length s - back - from) (skipn from s).

(** [s.replace(pat, rep)] for a string [pat] and a replacement without
    [$]: the first occurrence only. *)
Definition replace (pat rep s : jsstring) : jsstring :=
  match indexOf pat s with
  | Some i => firstn i s ++ rep ++ skipn (i + List.length pat) s
  | None => s
  end.

(** ** [LatexRenderer] (src/components/LatexRenderer.tsx) *)

(** The dollar sign. *)
Definition DOLLAR : N := 36.

(** The pattern [(\$\$.*?\$\$|\$.*?\$)] with flag [s], tried at the
    start of [s]: the length of what it matches.  The first
    alternative needs [$$] and takes up to the nearest later [$$]; if
    it fails the second needs [$] and takes up to the nearest later
    [$]. *)
Definition math_match (s : jsstring) : option nat :=
  match s with
  | c :: r =>
      if N.eqb c DOLLAR then
        match
          match r with
          | c2 :: r2 =>
              if N.eqb c2 DOLLAR
              then option_map (fun j => 2 + j + 2) (indexOf [DOLLAR; DOLLAR] r2)
              else None
          | [] => None
          end
        with
        | Some n => Some n
        | None => option_map (fun k => 1 + k + 1) (indexOf [DOLLAR] r)
        end
      else None
  | [] => None
  end.

(** The loop of [String.prototype.split] for this pattern: [cur] is
    the text since the last match, [s] what is left.  A match closes
    the text, is itself kept (it is the capture group) and the scan
    goes on after it; otherwise one more character joins the text. *)
Fixpoint split_loop (fuel : nat) (cur s : jsstring) : list jsstring :=
  match fuel with
  | 0 => [cur ++ s]
  | S f =>
      match s with
      | [] => [cur]
      | c :: r =>
          match math_match s with
          | Some n => cur :: firstn n s :: split_loop f [] (skipn n s)
          | None => split_loop f (cur ++ [c]) r
          end
      end
  end.

(** [content.split(/(\$\$.*?\$\$|\$.*?\$)/gs)] *)
Definition split (content : jsstring) : list jsstring :=
  split_loop (List.length content) [] content.

Inductive latex_node :=
| BlockMath (math : jsstring)       (* inside [<div className="my-4">] *)
| InlineMath (math : jsstring)
| Span (text : jsstring).

(** The body of [parts.map((part, index) => ...)] *)
Definition render_part (part : jsstring) : latex_node :=
  if startsWith [DOLLAR; DOLLAR] part && endsWith [DOLLAR; DOLLAR] part
  then BlockMath (trim (slice 2 2 part))
  else if startsWith [DOLLAR] part && endsWith [DOLLAR] part
  then InlineMath (trim (slice 1 1 part))
  else Span part.

(** The children of the [latex-content] element. *)
Definition LatexRenderer_view (content : jsstring) : list latex_node :=
  map render_part (split content).

Definition is_span (n : latex_node) : bool :=
  match n with
  | Span _ => true
  | _ => false
  end.

Definition no_dollar (s : jsstring) : Prop := ~ In DOLLAR s.

(** A piece a match leaves: it opens and closes with a dollar. *)
Definition delimited (m : jsstring) : Prop :=
  2 <= List.length m /\ startsWith [DOLLAR] m = true /\ endsWith [DOLLAR] m = true.

(** Text and matches in turn, ending with text; only the last text may
    hold a dollar. *)
Fixpoint alternating (parts : list jsstring) : Prop :=
  match parts with
  | [] => False
  | [_] => True
  | t :: rest =>
      no_dollar t /\
      match rest with
      | [] => False
      | m :: rest' => delimited m /\ alternating rest'
      end
  end.

(** ** The 3D viewer (the later [SVGRenderer], unnamed part 003) *)

(** [setTimeout] callbacks not yet run. *)
Inductive Timer :=
| ClearLoadingError       (* [() => setLoadingError(null)], 3000 ms *)
| ModelLoadComplete.      (* [() => onModelLoadComplete()], 1000 ms *)

(** [showAR] and [loadingError] of [ViewOptions], and [forceModelShow]
    of [SVGRenderer], which [onModelLoadStart] and
    [onModelLoadComplete] set and clear. *)
Record ViewState := mkView {
  showAR : bool;
  loadingError : option jsstring;
  forceModelShow : bool;
  timers : list Timer
}.

(** [handleARClick] of [ViewOptions] *)
Definition handleARClick (svgContent : jsstring) (v : ViewState) : ViewState :=
  if negb (truthy (Some svgContent)) || jsstring_eqb (trim svgContent) []
  then mkView (showAR v)
         (Some (lit "Cannot load 3D view: SVG content is empty"))
         (forceModelShow v) (timers v ++ [ClearLoadingError])
  else mkView true (loadingError v) true (timers v ++ [ModelLoadComplete]).

(** The [svgContent] that [ResponseRenderer] hands to [SVGRenderer],
    when it renders one. *)
Definition svgContent_of (data : Answer) : option jsstring :=
  if hasDiagram data then Some (or_empty (diagram data)) else None.

(** [<svg xmlns="http://www.w3.org/2000/svg"], the replacement. *)
Definition SVG_WITH_XMLNS : jsstring :=
  lit "<svg xmlns=" ++ [34%N] ++ lit "http://www.w3.org/2000/svg" ++ [34%N].

Inductive Prepared :=
| PrepError (message : jsstring)
| PrepOk (processedSvgContent : jsstring) (addedXmlns : bool).

(** The effect of [SVGIn3D] on [svgContent], from its two checks up to
    the content that goes to the blob and to the parser;
    [addedXmlns] tells whether "Added xmlns attribute" was put into
    the debug text.  The Three.js calls in between (the group and the
    fallback mesh) do not touch the content and are left out. *)
Definition SVGIn3D_prepare (svgContent : jsstring) : Prepared :=
  if negb (truthy (Some svgContent))
  then PrepError (lit "No SVG content provided")
  else if negb (includes (lit "<svg") svgContent)
          && negb (includes (lit "<?xml") svgContent)
  then PrepError (lit "Invalid SVG content - missing SVG tags")
  else
    let processedSvgContent := trim svgContent in
    if negb (includes (lit "xmlns=") processedSvgContent)
    then PrepOk (replace (lit "<svg") SVG_WITH_XMLNS processedSvgContent) true
    else PrepOk processedSvgContent false.

(** ** The response at run time *)

(** What [response.data] holds at run time.  [axios.post<Answer>]
    types it as an [Answer]; the body of a 2xx response that is not
    JSON is handed over by axios as the text it is. *)
Inductive ResponseData :=
| DataAnswer (a : Answer)
| DataText (body : jsstring).

(** How the request ends: fulfilled with [response.data], or failed
    (no response, or a status outside 2xx). *)
Inductive Settlement :=
| Fulfilled (data : ResponseData)
| Failed (error : jsstring).

Definition settlement_of (r : AxiosResult) : Settlement :=
  match r with
  | Resolved data => Fulfilled (DataAnswer data)
  | Rejected error => Failed error
  end.

(** The argument of the one [setAnswer] call [uploadImage] makes after
    the request: [response.data] in the [try], the fixed error result
    in the [catch]. *)
Definition answer_set_by (s : Settlement) : ResponseData :=
  match s with
  | Fulfilled data => data
  | Failed _ => DataAnswer FAILED
  end.



(** ** Facts about [trim] *)

Lemma trimStart_nil_iff (s : jsstring) :
  trimStart s = [] <-> forallb is_ws s = true.
Proof.
  induction s as [|c r IH]; simpl.
  - tauto.
  - destruct (is_ws c); simpl.
    + exact IH.
    + split; discriminate.
Qed.

Lemma trimStart_all_ws (s : jsstring) :
  forallb is_ws s = true -> trimStart s = [].
Proof. apply trimStart_nil_iff. Qed.

Lemma trimStart_suffix (s : jsstring) :
  exists p, s = p ++ trimStart s /\ forallb is_ws p = true.
Proof.
  induction s as [|c r [p [E W]]]; simpl.
  - exists []. auto.
  - destruct (is_ws c) eqn:Hc.
    + exists (c :: p). simpl. rewrite Hc, W. split; [f_equal; exact E | reflexivity].
    + exists []. auto.
Qed.

Lemma forallb_rev (f : N -> bool) (s : jsstring) :
  forallb f (rev s) = forallb f s.
Proof.
  induction s as [|c r IH]; simpl; [reflexivity|].
  rewrite forallb_app, IH. simpl. rewrite andb_true_r. apply andb_comm.
Qed.

Lemma trim_nil_iff (s : jsstring) :
  trim s = [] <-> forallb is_ws s = true.
Proof.
  unfold trim, trimEnd. split.
  - intros H.
    assert (H1 : trimStart (rev (trimStart s)) = []).
    { rewrite <- (rev_involutive (trimStart (rev (trimStart s)))), H. reflexivity. }
    apply trimStart_nil_iff in H1. rewrite forallb_rev in H1.
    destruct (trimStart_suffix s) as [p [E W]].
    rewrite E, forallb_app, W, H1. reflexivity.
  - intros H. rewrite (trimStart_all_ws _ H). reflexivity.
Qed.

Lemma hasDiagram_blank (data : Answer) :
  hasDiagram data = negb (blank (diagram data)).
Proof.
  unfold hasDiagram, blank. destruct (diagram data) as [d|]; [|reflexivity].
  destruct (forallb is_ws d) eqn:W.
  - apply trim_nil_iff in W. rewrite W. simpl. apply andb_false_r.
  - destruct d as [|c r]; [discriminate|]. simpl truthy. simpl andb.
    destruct (trim (c :: r)) eqn:T.
    + apply trim_nil_iff in T. congruence.
    + reflexivity.
Qed.

Lemma or_empty_some (d : jsstring) :
  or_empty (Some d) = d.
Proof. destruct d; reflexivity. Qed.

Lemma pieces_ResponseRenderer (data : Answer) :
  pieces (ResponseRenderer data) =
  if hasDiagram data
  then [Label (lit "Diagram"); Diagram (or_empty (diagram data));
        Label (lit "Explanation"); AnswerText (answer data)]
  else [AnswerText (answer data)].
Proof. unfold ResponseRenderer. destruct (hasDiagram data); reflexivity. Qed.

Lemma pieces_rev0 (data : Answer) :
  pieces (ResponseRenderer_rev0 data) = pieces (ResponseRenderer data).
Proof.
  unfold ResponseRenderer, ResponseRenderer_rev0.
  destruct (hasDiagram data); reflexivity.
Qed.

(** ** The presenter *)

Lemma styled_ResponseRenderer (ctx : list string) (a : Answer) :
  map snd (styled ctx (ResponseRenderer a)) = pieces (ResponseRenderer a).
Proof.
  unfold pieces, ResponseRenderer. destruct (hasDiagram a); reflexivity.
Qed.

Lemma styled_ImageUploader (w : World) :
  styled [] (ImageUploader w) =
  (if loading w
   then [(["bg-white rounded-lg shadow-lg p-4 md:p-6 w-full"%string], Spinner)]
   else [])
  ++ match answer_st w with
     | Some a =>
         styled ["bg-white rounded-lg shadow-lg p-4 md:p-6 w-full"%string;
                 "mt-4"%string; answer_class a] (ResponseRenderer a)
     | None => []
     end.
Proof.
  unfold ImageUploader.
  destruct (showCamera w), (selectedImage w) as [[|c r]|], (loading w),
    (answer_st w) as [a|]; simpl; rewrite ?app_nil_r; reflexivity.
Qed.

Lemma pieces_ImageUploader (w : World) :
  pieces (ImageUploader w) =
  (if loading w then [Spinner] else [])
  ++ match answer_st w with
     | Some a => pieces (ResponseRenderer a)
     | None => []
     end.
Proof.
  unfold pieces at 1. rewrite styled_ImageUploader, map_app. f_equal.
  - destruct (loading w); reflexivity.
  - destruct (answer_st w) as [a|]; [apply styled_ResponseRenderer | reflexivity].
Qed.

(** The green treatment of a success is not taken for the red one. *)
Example success_is_not_error_treatment :
  error_treatment [answer_class success_plain] = false
  /\ error_treatment [answer_class FAILED] = true.
Proof. split; reflexivity. Qed.

(** C1, as the specification words it, fails: an error result whose
    diagram is not blank gets its "Diagram" section and the vector
    renderer is invoked on it. *)
Lemma C1_counterexample :
  status error_with_diagram = StatusError /\
  pieces (ResponseRenderer error_with_diagram) =
    [Label (lit "Diagram"); Diagram sample_svg;
     Label (lit "Explanation"); AnswerText (lit "No solution found.")] /\
  renders_diagram (ImageUploader (with_answer (Some error_with_diagram) initial)) = true /\
  has_label "Diagram" (ResponseRenderer_rev0 error_with_diagram) = true.
Proof. repeat split; reflexivity. Qed.

(** C1 (amended): for an error result the answer text is shown, once,
    in the error treatment; whether a diagram is rendered does not
    depend on the status: the "Diagram" section appears and the vector
    renderer is invoked exactly when the diagram is not blank. *)
Theorem C1_error_result_presentation (w : World) (a : Answer) :
  answer_st w = Some a ->
  status a = StatusError ->
  (exists ctx,
     filter (fun cp => is_answer_text (snd cp)) (styled [] (ImageUploader w))
       = [(ctx, AnswerText (answer a))]
     /\ error_treatment ctx = true) /\
  renders_diagram (ImageUploader w) = negb (blank (diagram a)) /\
  has_label "Diagram" (ImageUploader w) = negb (blank (diagram a)) /\
  renders_diagram (ResponseRenderer_rev0 a) = negb (blank (diagram a)).
Proof.
  intros Ha He. split; [|split; [|split]].
  - rewrite styled_ImageUploader, Ha. unfold answer_class. rewrite He.
    unfold ResponseRenderer.
    destruct (loading w), (hasDiagram a); simpl;
      eexists; (split; [reflexivity|reflexivity]).
  - unfold renders_diagram. rewrite pieces_ImageUploader, Ha, pieces_ResponseRenderer.
    rewrite <- hasDiagram_blank.
    destruct (loading w), (hasDiagram a); reflexivity.
  - unfold has_label. rewrite pieces_ImageUploader, Ha, pieces_ResponseRenderer.
    rewrite <- hasDiagram_blank.
    destruct (loading w), (hasDiagram a); reflexivity.
  - unfold renders_diagram. rewrite pieces_rev0, pieces_ResponseRenderer.
    rewrite <- hasDiagram_blank.
    destruct (hasDiagram a); reflexivity.
Qed.

(** The synthesized error result, shown on an otherwise fresh page. *)
Lemma C1_error_result_presentation_witness :
  renders_diagram (ImageUploader (with_answer (Some FAILED) initial)) = false.
Proof.
  exact (proj1 (proj2
    (C1_error_result_presentation (with_answer (Some FAILED) initial) FAILED
       eq_refl eq_refl))).
Defined.

(** C7: for a success result, a blank diagram (absent, empty or white
    space only) gives the answer text alone, with no "Diagram" and no
    "Explanation" label; a diagram with some non-white-space text gives
    the "Diagram" label, the diagram itself, the "Explanation" label
    and the answer text, in this order. *)
Theorem C7_diagram_gating (a : Answer) :
  status a = StatusSuccess ->
  (blank (diagram a) = true ->
     pieces (ResponseRenderer a) = [AnswerText (answer a)]
     /\ has_label "Diagram" (ResponseRenderer a) = false
     /\ has_label "Explanation" (ResponseRenderer a) = false) /\
  (forall d, diagram a = Some d -> forallb is_ws d = false ->
     pieces (ResponseRenderer a) =
       [Label (lit "Diagram"); Diagram d;
        Label (lit "Explanation"); AnswerText (answer a)]).
Proof.
  intros _. split.
  - intros B. unfold has_label. rewrite pieces_ResponseRenderer, hasDiagram_blank, B.
    repeat split; reflexivity.
  - intros d Hd W. rewrite pieces_ResponseRenderer, hasDiagram_blank, Hd.
    cbn [blank]. rewrite W. cbn [negb]. rewrite or_empty_some. reflexivity.
Qed.

(** The two end-to-end scenarios of the specification. *)
Lemma C7_diagram_gating_witness :
  pieces (ResponseRenderer success_plain) = [AnswerText (lit "The answer is $x=2$.")] /\
  pieces (ResponseRenderer success_with_diagram) =
    [Label (lit "Diagram"); Diagram sample_svg;
     Label (lit "Explanation"); AnswerText (lit "See diagram.")].
Proof.
  split.
  - exact (proj1 (proj1 (C7_diagram_gating success_plain eq_refl) eq_refl)).
  - exact (proj2 (C7_diagram_gating success_with_diagram eq_refl)
             sample_svg eq_refl eq_refl).
Defined.

(** ** The handlers, one stretch at a time *)

Arguments lit : simpl never.

Lemma skipn_length_app (A : Type) (l1 l2 : list A) :
  skipn (List.length l1) (l1 ++ l2) = l2.
Proof. induction l1 as [|x l1 IH]; simpl; auto. Qed.

Lemma emitted_app (w w' : World) (l : list Effect) :
  trace w' = trace w ++ l -> emitted w w' = l.
Proof. intros H. unfold emitted. rewrite H. apply skipn_length_app. Qed.

Lemma forEach_track_stop (stream : MediaStream) (w : World) :
  forEach stream track_stop w =
  (Ok tt, with_trace (trace w ++ map TrackStop stream)
            (with_stopped (rev stream ++ stopped w) w)).
Proof.
  revert w. induction stream as [|t r IH]; intros w.
  - destruct w. cbn. rewrite app_nil_r. reflexivity.
  - cbn [forEach]. unfold bind. unfold track_stop at 1. unfold emit.
    rewrite IH. destruct w. cbn. rewrite <- !app_assoc. reflexivity.
Qed.

Ltac trace_norm :=
  cbv -[lit app QUESTION FAILED form_of logged_of];
  rewrite <- ?app_assoc; cbn [app].

Lemma uploadImage_run (file : Blob) (w : World) :
  uploadImage file w =
  (Ok tt,
   with_trace
     (trace w ++
      [SetLoading true;
       ConsoleLog [LText (lit "FormData contents:")];
       ConsoleLog (logged_of (lit "image", FBlob file));
       ConsoleLog (logged_of (lit "question", FText QUESTION));
       AxiosPost (nextId w) (lit "/ask") (form_of file)])
     (with_requests (inflight w ++ [(nextId w, form_of file)]) (S (nextId w))
        (with_loading true w))).
Proof. destruct w. trace_norm. reflexivity. Qed.

Lemma handleFileSelect_run (file : Blob) (rest : list Blob) (w : World) :
  handleFileSelect (file :: rest) w =
  (Ok tt,
   with_trace
     (trace w ++
      [SetAnswer None; SetLoading true; ReadAsDataURL file;
       SetLoading true;
       ConsoleLog [LText (lit "FormData contents:")];
       ConsoleLog (logged_of (lit "image", FBlob file));
       ConsoleLog (logged_of (lit "question", FText QUESTION));
       AxiosPost (nextId w) (lit "/ask") (form_of file)])
     (with_requests (inflight w ++ [(nextId w, form_of file)]) (S (nextId w))
        (with_pendingReads (S (pendingReads w))
           (with_loading true (with_answer None w))))).
Proof. destruct w. trace_norm. reflexivity. Qed.

Lemma toBlob_callback_run (b : Blob) (url : jsstring) (w : World) :
  (setSelectedImage url ;; uploadImage b) w =
  (Ok tt,
   with_trace
     (trace w ++
      [SetSelectedImage url;
       SetLoading true;
       ConsoleLog [LText (lit "FormData contents:")];
       ConsoleLog (logged_of (lit "image", FBlob b));
       ConsoleLog (logged_of (lit "question", FText QUESTION));
       AxiosPost (nextId w) (lit "/ask") (form_of b)])
     (with_requests (inflight w ++ [(nextId w, form_of b)]) (S (nextId w))
        (with_loading true (with_selectedImage (Some url) w)))).
Proof. destruct w. trace_norm. reflexivity. Qed.

Lemma uploadImage_settled_run (r : AxiosResult) (w : World) :
  uploadImage_settled r w =
  (Ok tt,
   match r with
   | Resolved data =>
       with_trace (trace w ++ [SetAnswer (Some data); SetLoading false])
         (with_loading false (with_answer (Some data) w))
   | Rejected error =>
       with_trace
         (trace w ++
          [ConsoleError (lit "Error uploading image:") (AxiosError error);
           SetAnswer (Some FAILED); SetLoading false])
         (with_loading false (with_answer (Some FAILED) w))
   end).
Proof. destruct w, r; trace_norm; reflexivity. Qed.

Lemma startCamera_settled_run (r : MediaStream + jsstring) (w : World) :
  startCamera_settled r w =
  (Ok tt,
   match r with
   | inl stream =>
       match videoRef w with
       | Some _ =>
           with_trace
             (trace w ++ [SetSrcObject stream; SetShowCamera true; SetAnswer None])
             (with_answer None (with_showCamera true
                (with_videoRef (Some (mkVideo (Some stream))) w)))
       | None =>
           with_trace (trace w ++ [SetShowCamera true; SetAnswer None])
             (with_answer None (with_showCamera true w))
       end
   | inr msg =>
       with_trace
         (trace w ++ [ConsoleError (lit "Error accessing camera:") (DOMException msg)])
         w
   end).
Proof.
  destruct w as [? ? ? ? [v|] ? ? ? ? ? ? ? ?], r; trace_norm; reflexivity.
Qed.

Lemma captureImage_run (w : World) :
  captureImage w =
  match videoRef w with
  | Some video =>
      match srcObject video with
      | Some stream =>
          (Ok tt,
           with_trace
             (trace w ++ [SetAnswer None; SetLoading true; ToBlob]
                ++ map TrackStop stream ++ [SetShowCamera false])
             (with_showCamera false
                (with_stopped (rev stream ++ stopped w)
                   (with_pendingBlob (S (pendingBlob w))
                      (with_loading true (with_answer None w))))))
      | None =>
          (Throw (TypeError (lit "Cannot read properties of null (reading 'getTracks')")),
           with_trace (trace w ++ [SetAnswer None; SetLoading true; ToBlob])
             (with_pendingBlob (S (pendingBlob w))
                (with_loading true (with_answer None w))))
      end
  | None => (Ok tt, w)
  end.
Proof.
  destruct w as [? ? ? ? [[[stream|]]|] ? ? ? ? ? ? ? ?].
  - unfold captureImage, bind, videoRef_current.
    cbn [videoRef srcObject].
    unfold setAnswer at 1, setLoading at 1, toBlob at 1, emit.
    rewrite forEach_track_stop. trace_norm. reflexivity.
  - trace_norm. reflexivity.
  - reflexivity.
Qed.

(** ** Steps of the event loop *)

Lemma posts_track_stops (stream : MediaStream) :
  posts (map TrackStop stream) = [].
Proof. induction stream; simpl; auto. Qed.

Lemma well_formed_track_stops (stream : MediaStream) :
  Forall well_formed_post (map TrackStop stream).
Proof. induction stream; simpl; constructor; simpl; auto. Qed.

Lemma well_formed_upload (id : nat) (file : Blob) :
  well_formed_post (AxiosPost id (lit "/ask") (form_of file)).
Proof. simpl. split; [reflexivity | exists file; reflexivity]. Qed.

Ltac wf_posts :=
  repeat (apply Forall_cons; [first [exact I | apply well_formed_upload]|]);
  apply Forall_nil.

Ltac step_cases H :=
  unfold step in H;
  repeat match type of H with
         | context [if ?b then _ else _] => destruct b eqn:?
         | context [match ?n with 0 => _ | S _ => _ end] => destruct n eqn:?
         end;
  try discriminate H;
  injection H as H; subst.

(** Whatever happens only adds to the trace; requests have the one
    shape [uploadImage] gives them; and only a new image makes one. *)
Lemma step_trace (w w' : World) (ev : Event) :
  step w ev = Some w' ->
  exists l, trace w' = trace w ++ l
            /\ Forall well_formed_post l
            /\ (starts_submission ev = false -> posts l = []).
Proof.
  intros H. destruct ev as [[|file rest]| |r| |[b|] url|id r|res]; step_cases H;
    unfold run_handler.
  - exists []. cbn. rewrite app_nil_r. repeat split; auto.
  - rewrite handleFileSelect_run. eexists. split; [reflexivity|].
    split; [wf_posts | discriminate].
  - eexists. split; [reflexivity|]. split; [wf_posts | reflexivity].
  - rewrite startCamera_settled_run.
    destruct r as [stream|msg]; [destruct w as [? ? ? ? [v|] ? ? ? ? ? ? ? ?]|];
      (eexists; split; [reflexivity|];
       split; [wf_posts | reflexivity]).
  - rewrite captureImage_run.
    destruct (videoRef w) as [[[stream|]]|].
    + eexists. split; [reflexivity|]. split.
      * repeat (apply Forall_cons; [exact I|]).
        apply Forall_app. split; [apply well_formed_track_stops | wf_posts].
      * intros _. cbn [app]. unfold posts. cbn [filter is_post].
        rewrite filter_app. fold (posts (map TrackStop stream)).
        rewrite posts_track_stops. reflexivity.
    + eexists. split; [cbn; rewrite <- app_assoc; reflexivity|].
      split; [wf_posts | reflexivity].
    + exists []. cbn. rewrite app_nil_r. repeat split; auto.
  - rewrite toBlob_callback_run. eexists. split; [reflexivity|].
    split; [wf_posts | discriminate].
  - exists []. cbn. rewrite app_nil_r. repeat split; auto.
  - rewrite uploadImage_settled_run.
    destruct r; (eexists; split; [reflexivity|];
                 split; [wf_posts | reflexivity]).
  - eexists. split; [reflexivity|]. split; [wf_posts | reflexivity].
Qed.

Lemma run_trace (evs : list Event) (w w' : World) :
  run w evs = Some w' ->
  exists l, trace w' = trace w ++ l /\ Forall well_formed_post l.
Proof.
  revert w. induction evs as [|ev r IH]; intros w H; simpl in H.
  - injection H as <-. exists []. rewrite app_nil_r. auto.
  - destruct (step w ev) as [w1|] eqn:E; [|discriminate].
    destruct (step_trace _ _ _ E) as [l1 [T1 [F1 _]]].
    destruct (IH _ H) as [l2 [T2 F2]].
    exists (l1 ++ l2). rewrite T2, T1, app_assoc. split; [reflexivity|].
    apply Forall_app. auto.
Qed.

(** While nothing is in flight and no new image comes in, a page that
    shows the loading indicator and no answer stays that way. *)
Lemma quiet_step (w w' : World) (ev : Event) :
  step w ev = Some w' ->
  starts_submission ev = false ->
  inflight w = [] -> loading w = true -> answer_st w = None ->
  inflight w' = [] /\ loading w' = true /\ answer_st w' = None
  /\ nextId w' = nextId w
  /\ exists l, stopped w' = l ++ stopped w.
Proof.
  intros H Q I L A.
  destruct ev as [[|file rest]| |r| |[b|] url|id r|res]; try discriminate Q;
    step_cases H; unfold run_handler.
  - cbn. repeat split; auto. exists []. reflexivity.
  - cbn. repeat split; auto. exists []. reflexivity.
  - rewrite startCamera_settled_run.
    destruct r as [stream|msg]; [destruct w as [? ? ? ? [v|] ? ? ? ? ? ? ? ?]|];
      cbn in *; repeat split; auto; exists []; reflexivity.
  - rewrite captureImage_run.
    destruct (videoRef w) as [[[stream|]]|]; cbn; repeat split; auto;
      first [exists []; reflexivity | exists (rev stream); reflexivity].
  - cbn. repeat split; auto. exists []. reflexivity.
  - unfold is_inflight in *. rewrite I in *. discriminate.
  - cbn. repeat split; auto. exists []. reflexivity.
Qed.

Lemma quiet_run (evs : list Event) (w w' : World) :
  run w evs = Some w' ->
  quiet evs = true ->
  inflight w = [] -> loading w = true -> answer_st w = None ->
  inflight w' = [] /\ loading w' = true /\ answer_st w' = None
  /\ nextId w' = nextId w
  /\ exists l, stopped w' = l ++ stopped w.
Proof.
  revert w. induction evs as [|ev r IH]; intros w H Q I L A; simpl in H.
  - injection H as <-. repeat split; auto. exists []. reflexivity.
  - destruct (step w ev) as [w1|] eqn:E; [|discriminate].
    unfold quiet in Q. simpl in Q. apply andb_true_iff in Q. destruct Q as [Q1 Q2].
    apply negb_true_iff in Q1.
    destruct (quiet_step _ _ _ E Q1 I L A) as (I1 & L1 & A1 & N1 & l1 & S1).
    destruct (IH _ H Q2 I1 L1 A1) as (I2 & L2 & A2 & N2 & l2 & S2).
    repeat split; auto; try congruence.
    exists (l2 ++ l1). rewrite S2, S1, app_assoc. reflexivity.
Qed.

Lemma all_stopped_app (stream : MediaStream) (l : list nat) (w w' : World) :
  stopped w' = l ++ stopped w ->
  all_stopped stream w = true -> all_stopped stream w' = true.
Proof.
  unfold all_stopped. intros S H. rewrite forallb_forall in *. intros t Ht.
  rewrite S, existsb_app, (H t Ht). apply orb_true_r.
Qed.

Lemma all_stopped_rev (stream : MediaStream) (l : list nat) (w : World) :
  stopped w = rev stream ++ l -> all_stopped stream w = true.
Proof.
  unfold all_stopped. intros S. rewrite forallb_forall. intros t Ht.
  rewrite S, existsb_app. apply orb_true_iff. left.
  apply existsb_exists. exists t. split; [apply in_rev in Ht; exact Ht | apply Nat.eqb_refl].
Qed.

Lemma posts_app (l1 l2 : list Effect) :
  posts (l1 ++ l2) = posts l1 ++ posts l2.
Proof. apply filter_app. Qed.

Lemma quiet_run_posts (evs : list Event) (w w' : World) :
  run w evs = Some w' ->
  quiet evs = true ->
  exists l, trace w' = trace w ++ l /\ posts l = [].
Proof.
  revert w. induction evs as [|ev r IH]; intros w H Q; simpl in H.
  - injection H as <-. exists []. rewrite app_nil_r. auto.
  - destruct (step w ev) as [w1|] eqn:E; [|discriminate].
    unfold quiet in Q. simpl in Q. apply andb_true_iff in Q. destruct Q as [Q1 Q2].
    apply negb_true_iff in Q1.
    destruct (step_trace _ _ _ E) as (l1 & T1 & _ & P1).
    destruct (IH _ H Q2) as (l2 & T2 & P2).
    exists (l1 ++ l2). rewrite T2, T1, app_assoc, posts_app, (P1 Q1), P2. auto.
Qed.

(** After React has rendered, the video element exists exactly while
    the camera view is shown. *)
Lemma step_videoRef (w w' : World) (ev : Event) :
  step w ev = Some w' ->
  showCamera w' = false -> videoRef w' = None.
Proof.
  assert (C : forall x, showCamera (commit x) = false -> videoRef (commit x) = None).
  { intros x. unfold commit. cbn. intros ->. reflexivity. }
  intros H.
  destruct ev as [files| |r| |blob url|id r|res]; step_cases H; unfold run_handler;
    match goal with
    | |- context [let (_, _) := ?c in _] => destruct c as [[u|e] x]
    end; apply C.
Qed.

Lemma run_videoRef (evs : list Event) (w w' : World) :
  run w evs = Some w' ->
  (showCamera w = false -> videoRef w = None) ->
  showCamera w' = false -> videoRef w' = None.
Proof.
  revert w. induction evs as [|ev r IH]; intros w H I; simpl in H.
  - injection H as <-. exact I.
  - destruct (step w ev) as [w1|] eqn:E; [|discriminate].
    apply (IH _ H). apply (step_videoRef _ _ _ E).
Qed.

(** ** The submission client *)

(** C3, as the specification words it, fails for a malformed body: a
    2xx response whose body is not JSON fulfils the promise, the
    [catch] is not entered, and what [setAnswer] gets is that body, not
    the fixed error result. *)
Lemma C3_counterexample :
  answer_set_by (Fulfilled (DataText (lit "<html>Bad Gateway</html>")))
    = DataText (lit "<html>Bad Gateway</html>")
  /\ answer_set_by (Fulfilled (DataText (lit "<html>Bad Gateway</html>")))
     <> DataAnswer (mkAnswer StatusError
                      (lit "Failed to process the image. Please try again.") None).
Proof. split; [reflexivity | discriminate]. Qed.

(** C3 (amended): when the request fails by rejection (no response, or
    a status outside 2xx), [uploadImage] catches it: the stretch after
    the request returns normally, nothing is left uncaught, and the
    answer it leaves is exactly the fixed error result; the stretch
    before the request never throws either.  A response that fulfils
    the promise is never converted: its data are the answer, whatever
    they are. *)
Theorem C3_rejection_gives_error_result (w : World) (error : jsstring) :
  (forall file, fst (uploadImage file w) = Ok tt)
  /\ (forall r, fst (uploadImage_settled r w) = Ok tt)
  /\ answer_st (run_handler (uploadImage_settled (Rejected error)) w) =
       Some (mkAnswer StatusError
               (lit "Failed to process the image. Please try again.") None)
  /\ emitted w (run_handler (uploadImage_settled (Rejected error)) w) =
       [ConsoleError (lit "Error uploading image:") (AxiosError error);
        SetAnswer (Some FAILED); SetLoading false]
  /\ answer_set_by (Failed error) =
       DataAnswer (mkAnswer StatusError
                     (lit "Failed to process the image. Please try again.") None)
  /\ (forall data, answer_set_by (Fulfilled data) = data)
  /\ (forall r,
        option_map DataAnswer (answer_st (run_handler (uploadImage_settled r) w))
        = Some (answer_set_by (settlement_of r))).
Proof.
  repeat (apply conj).
  - intros file. rewrite uploadImage_run. reflexivity.
  - intros r. rewrite uploadImage_settled_run. reflexivity.
  - unfold run_handler. rewrite uploadImage_settled_run. reflexivity.
  - apply emitted_app. unfold run_handler. rewrite uploadImage_settled_run.
    reflexivity.
  - reflexivity.
  - intros data. reflexivity.
  - intros r. unfold run_handler. rewrite uploadImage_settled_run.
    destruct r; reflexivity.
Qed.

(** C5, as the specification words it, fails: the [question] entry of
    the request is not the string quoted there. *)
Lemma C5_counterexample :
  exists body,
    posts (trace (run_handler (handleFileSelect [sample_blob]) initial)) =
      [AxiosPost 0 (lit "/ask") body]
    /\ question_of body <>
         Some (FText (lit "review this image and solve the question with step-by-step reasoning")).
Proof.
  eexists. split; [reflexivity|]. intros H. vm_compute in H. discriminate H.
Qed.

(** C5 (amended): every request the page ever sends goes to [/ask]
    with the image and, as its [question] entry, the constant
    "Can you review this image and solve the question with step by step
    reasoning?"; nothing the caller supplies enters it. *)
Theorem C5_fixed_question (evs : list Event) (w : World)
    (id : nat) (url : jsstring) (body : FormData) :
  run initial evs = Some w ->
  In (AxiosPost id url body) (trace w) ->
  url = lit "/ask"
  /\ question_of body =
       Some (FText (lit "Can you review this image and solve the question with step by step reasoning?"))
  /\ exists file, body = [(lit "image", FBlob file); (lit "question", FText QUESTION)].
Proof.
  intros R H. destruct (run_trace _ _ _ R) as (l & T & F).
  rewrite T in H. simpl in H. rewrite Forall_forall in F.
  destruct (F _ H) as [U [file B]]. subst. repeat split; eauto.
Qed.

(** The request of a first file selection. *)
Lemma C5_fixed_question_witness :
  question_of (form_of sample_blob) = Some (FText QUESTION).
Proof.
  refine (proj1 (proj2
    (C5_fixed_question [ChooseFile [sample_blob]]
       (run_handler (handleFileSelect [sample_blob]) initial)
       0 (lit "/ask") (form_of sample_blob) _ _))).
  - reflexivity.
  - vm_compute. do 7 right. left. reflexivity.
Defined.

(** C2, as the specification words it, fails: with the loading flag
    set and one request outstanding the file chooser is still there,
    and a second selection sends a second request at once. *)
Lemma C2_counterexample :
  exists w1 w2,
    step initial (ChooseFile [sample_blob]) = Some w1
    /\ loading w1 = true
    /\ map fst (inflight w1) = [0]
    /\ step w1 (ChooseFile [other_blob]) = Some w2
    /\ map fst (inflight w2) = [0; 1]
    /\ posts (emitted w1 w2) = [AxiosPost 1 (lit "/ask") (form_of other_blob)].
Proof.
  exists (run_handler (handleFileSelect [sample_blob]) initial),
         (run_handler (handleFileSelect [other_blob])
            (run_handler (handleFileSelect [sample_blob]) initial)).
  repeat (apply conj); vm_compute; reflexivity.
Qed.

(** C2 (amended): a submission is never rejected or queued.  Whatever
    the loading flag and whatever is already in flight, a selected file
    and an encoded frame each send their request at once, and it joins
    the requests in flight. *)
Theorem C2_submissions_overlap (w : World) (file : Blob) :
  (forall rest, showCamera w = false ->
     exists w', step w (ChooseFile (file :: rest)) = Some w'
       /\ inflight w' = inflight w ++ [(nextId w, form_of file)]
       /\ posts (emitted w w') = [AxiosPost (nextId w) (lit "/ask") (form_of file)])
  /\ (forall url n, pendingBlob w = S n ->
     exists w', step w (ToBlobDone (Some file) url) = Some w'
       /\ inflight w' = inflight w ++ [(nextId w, form_of file)]
       /\ posts (emitted w w') = [AxiosPost (nextId w) (lit "/ask") (form_of file)]).
Proof.
  split.
  - intros rest C. unfold step. rewrite C. eexists. split; [reflexivity|].
    unfold run_handler. rewrite handleFileSelect_run. split; [reflexivity|].
    erewrite emitted_app by reflexivity. reflexivity.
  - intros url n P. unfold step. rewrite P. eexists. split; [reflexivity|].
    unfold run_handler, toBlob_callback. rewrite toBlob_callback_run.
    split; [reflexivity|].
    erewrite emitted_app by reflexivity. reflexivity.
Qed.

(** A second selection while the first request is outstanding. *)
Lemma C2_submissions_overlap_witness :
  exists w1 w2,
    step initial (ChooseFile [sample_blob]) = Some w1
    /\ step w1 (ChooseFile [other_blob]) = Some w2
    /\ inflight w2 = inflight w1 ++ [(nextId w1, form_of other_blob)].
Proof.
  eexists.
  destruct (proj1 (C2_submissions_overlap
                     (run_handler (handleFileSelect [sample_blob]) initial)
                     other_blob) [] eq_refl) as (w2 & S2 & I2 & _).
  exists w2. split; [reflexivity|]. split; [exact S2 | exact I2].
Defined.


(** C8: when [getUserMedia] fails, [startCamera] only logs the error.
    Neither the click that asks for the camera nor the rejection
    changes a state cell, so the page looks the same: the loading flag
    keeps its value, no error result appears, and a result that was on
    the page stays on it. *)
Theorem C8_camera_failure_only_logged (w : World) (msg : jsstring) :
  (forall w1, step w ClickTakePhoto = Some w1 ->
     selectedImage w1 = selectedImage w /\ answer_st w1 = answer_st w
     /\ loading w1 = loading w /\ showCamera w1 = showCamera w
     /\ emitted w w1 = [GetUserMedia])
  /\ (forall w2, step w (MediaSettled (inr msg)) = Some w2 ->
     selectedImage w2 = selectedImage w /\ answer_st w2 = answer_st w
     /\ loading w2 = loading w /\ showCamera w2 = showCamera w
     /\ ImageUploader w2 = ImageUploader w
     /\ emitted w w2 =
          [ConsoleError (lit "Error accessing camera:") (DOMException msg)]).
Proof.
  split.
  - intros w1 H. step_cases H. unfold run_handler. cbn.
    repeat (apply conj); try reflexivity; try assumption.
    apply emitted_app. reflexivity.
  - intros w2 H. step_cases H. unfold run_handler.
    rewrite startCamera_settled_run. cbn.
    repeat (apply conj); try reflexivity; try assumption.
    apply emitted_app. reflexivity.
Qed.

(** Permission denied while a result is on the page. *)
Lemma C8_camera_failure_only_logged_witness :
  exists w1 w2,
    step (with_answer (Some success_plain) initial) ClickTakePhoto = Some w1
    /\ step w1 (MediaSettled (inr (lit "NotAllowedError"))) = Some w2
    /\ answer_st w2 = Some success_plain /\ loading w2 = false.
Proof.
  exists (run_handler startCamera (with_answer (Some success_plain) initial)).
  eexists. split; [reflexivity|]. split; [reflexivity|].
  destruct (proj2 (C8_camera_failure_only_logged
                     (run_handler startCamera (with_answer (Some success_plain) initial))
                     (lit "NotAllowedError")) _ eq_refl)
    as (_ & A & L & _).
  split; [exact A | exact L].
Defined.







(** ** The camera *)

(** When the camera view is closed there is no video element, so the
    stream [getUserMedia] hands out is not stored anywhere: the video
    element that appears with the camera view has no [srcObject].
    [captureImage] then fails on [stream.getTracks()], before the
    tracks are stopped and before the camera view is closed. *)
Lemma stream_not_attached (evs : list Event) (w w1 : World) (stream : MediaStream) :
  run initial evs = Some w ->
  showCamera w = false ->
  step w (MediaSettled (inl stream)) = Some w1 ->
  videoRef w1 = Some (mkVideo None) /\ showCamera w1 = true
  /\ forall w2, step w1 ClickCapture = Some w2 ->
       stopped w2 = stopped w /\ showCamera w2 = true.
Proof.
  intros R C H.
  assert (V : videoRef w = None) by (apply (run_videoRef _ _ _ R); auto).
  step_cases H. unfold run_handler. rewrite startCamera_settled_run.
  destruct w as [? ? ? ? v ? ? ? ? ? ? ? ?]. cbn in V, C. subst.
  cbn. repeat (apply conj); try reflexivity.
  intros w2 H. cbn in H. injection H as <-. split; reflexivity.
Qed.

(** A stream that is attached to the video element is released by
    [captureImage]: every track stopped, camera view closed. *)
Lemma captureImage_releases_attached (w : World) (stream : MediaStream) :
  videoRef w = Some (mkVideo (Some stream)) ->
  all_stopped stream (run_handler captureImage w) = true
  /\ showCamera (run_handler captureImage w) = false.
Proof.
  intros V. unfold run_handler. rewrite captureImage_run, V. cbn [srcObject].
  split; [|reflexivity].
  apply (all_stopped_rev stream (stopped w)). reflexivity.
Qed.

(** C9 does not hold of the code.  On the ordinary path (Take Photo,
    permission granted, Capture) the stream was never attached to the
    video element; [captureImage] raises a [TypeError] at
    [stream.getTracks()], no track of the acquired stream is stopped,
    and the camera view stays open. *)
Theorem C9_capture_leaves_camera_on :
  exists w1 w2,
    run initial [ClickTakePhoto; MediaSettled (inl [0; 1])] = Some w1
    /\ videoRef w1 = Some (mkVideo None)
    /\ step w1 ClickCapture = Some w2
    /\ acquired w2 = [[0; 1]]
    /\ stopped w2 = []
    /\ all_stopped [0; 1] w2 = false
    /\ showCamera w2 = true
    /\ emitted w1 w2 =
         [SetAnswer None; SetLoading true; ToBlob;
          Uncaught (TypeError (lit "Cannot read properties of null (reading 'getTracks')"))].
Proof.
  exists (after [ClickTakePhoto; MediaSettled (inl [0; 1])]),
         (after [ClickTakePhoto; MediaSettled (inl [0; 1]); ClickCapture]).
  repeat (apply conj); vm_compute; reflexivity.
Qed.

(** Even when [captureImage] does run to its end (two clicks on Take
    Photo, so that the second stream finds the video element), the
    stream of the first click is left running. *)
Lemma first_stream_leaks :
  exists w,
    run initial [ClickTakePhoto; ClickTakePhoto;
                 MediaSettled (inl [0; 1]); MediaSettled (inl [2]);
                 ClickCapture] = Some w
    /\ acquired w = [[0; 1]; [2]]
    /\ all_stopped [2] w = true
    /\ all_stopped [0; 1] w = false
    /\ showCamera w = false.
Proof.
  exists (after [ClickTakePhoto; ClickTakePhoto;
                 MediaSettled (inl [0; 1]); MediaSettled (inl [2]); ClickCapture]).
  repeat (apply conj); vm_compute; reflexivity.
Qed.

(** C10 does not hold of the code in its last part.  On the ordinary
    path the canvas yields no blob, no request is sent and the loading
    flag stays set, as stated; but the tracks of the acquired stream
    are not stopped and the camera view is still open, for the stream
    was never attached to the video element. *)
Theorem C10_null_blob_tracks_left_live :
  exists w,
    run initial [ClickTakePhoto; MediaSettled (inl [3; 4]);
                 ClickCapture; ToBlobDone None []] = Some w
    /\ posts (trace w) = []
    /\ loading w = true
    /\ acquired w = [[3; 4]]
    /\ all_stopped [3; 4] w = false
    /\ showCamera w = true.
Proof.
  exists (after [ClickTakePhoto; MediaSettled (inl [3; 4]);
                 ClickCapture; ToBlobDone None []]).
  repeat (apply conj); vm_compute; reflexivity.
Qed.

(** X19: if the canvas yields no blob, no request is sent and the
    loading flag, set by [captureImage], is not cleared: with no
    other submission outstanding the page keeps showing the loading
    indicator for as long as no new image is submitted.  The tracks of
    the stream attached to the video element, when there is one, are
    stopped and stay stopped. *)
Theorem null_blob_leaves_loading (w : World) (video : VideoElement)
    (url : jsstring) :
  videoRef w = Some video ->
  showCamera w = true ->
  inflight w = [] ->
  exists w2,
    run w [ClickCapture; ToBlobDone None url] = Some w2
    /\ posts (emitted w w2) = [] /\ inflight w2 = [] /\ loading w2 = true
    /\ (forall stream, srcObject video = Some stream ->
          all_stopped stream w2 = true /\ showCamera w2 = false)
    /\ (forall evs w3, quiet evs = true -> run w2 evs = Some w3 ->
          loading w3 = true /\ inflight w3 = []
          /\ posts (emitted w w3) = []
          /\ In Spinner (pieces (ImageUploader w3))
          /\ (forall stream, srcObject video = Some stream ->
                all_stopped stream w3 = true)).
Proof.
  intros V C I.
  destruct (step w ClickCapture) as [w1|] eqn:S1;
    [|unfold step in S1; rewrite C in S1; discriminate].
  assert (H1 : inflight w1 = [] /\ loading w1 = true /\ answer_st w1 = None
               /\ pendingBlob w1 = S (pendingBlob w)
               /\ (forall stream, srcObject video = Some stream ->
                     stopped w1 = rev stream ++ stopped w /\ showCamera w1 = false)).
  { step_cases S1. unfold run_handler. rewrite captureImage_run, V.
    destruct (srcObject video) as [s|]; cbn; repeat (apply conj); auto.
    - intros stream E. injection E as <-. split; reflexivity.
    - intros stream E. discriminate E. }
  destruct H1 as (I1 & L1 & A1 & P1 & T1).
  destruct (step_trace _ _ _ S1) as (l1 & Tr1 & _ & Po1).
  specialize (Po1 eq_refl).
  exists (commit (with_pendingBlob (pendingBlob w) w1)).
  assert (R : run w [ClickCapture; ToBlobDone None url]
              = Some (commit (with_pendingBlob (pendingBlob w) w1))).
  { cbn [run]. rewrite S1. unfold step. rewrite P1. reflexivity. }
  split; [exact R|].
  assert (E2 : emitted w (commit (with_pendingBlob (pendingBlob w) w1)) = l1).
  { apply emitted_app. exact Tr1. }
  split; [rewrite E2; exact Po1|].
  split; [exact I1|]. split; [exact L1|]. split.
  - intros stream E. destruct (T1 _ E) as [St Sh]. split.
    + apply (all_stopped_rev stream (stopped w)). exact St.
    + cbn. exact Sh.
  - intros evs w3 Q R3.
    destruct (quiet_run evs (commit (with_pendingBlob (pendingBlob w) w1)) w3
                R3 Q I1 L1 A1) as (I3 & L3 & A3 & _ & l & S3).
    destruct (quiet_run_posts _ _ _ R3 Q) as (l3 & Tr3 & Po3).
    repeat (apply conj); auto.
    + erewrite emitted_app; [|rewrite Tr3; cbn [trace commit with_videoRef with_pendingBlob];
                               rewrite Tr1, <- app_assoc; reflexivity].
      rewrite posts_app, Po1, Po3. reflexivity.
    + rewrite pieces_ImageUploader, L3. left. reflexivity.
    + intros stream E. destruct (T1 _ E) as [St _].
      apply (all_stopped_app stream l (commit (with_pendingBlob (pendingBlob w) w1))).
      * exact S3.
      * apply (all_stopped_rev stream (stopped w)). exact St.
Qed.

(** A capture with the second stream attached and no blob. *)
Lemma null_blob_leaves_loading_witness :
  exists w2,
    run camera_attached [ClickCapture; ToBlobDone None []] = Some w2
    /\ loading w2 = true
    /\ all_stopped [2] w2 = true.
Proof.
  destruct (null_blob_leaves_loading camera_attached (mkVideo (Some [2])) []
              eq_refl eq_refl eq_refl) as (w2 & R & _ & _ & L & T & _).
  exists w2. split; [exact R|]. split; [exact L|].
  exact (proj1 (T [2] eq_refl)).
Defined.

(** ** Searching in strings *)

Lemma startsWith_iff (pat s : jsstring) :
  startsWith pat s = true <-> exists r, s = pat ++ r.
Proof.
  revert s. induction pat as [|p pr IH]; intros s; simpl.
  - split; [intros _; exists s; reflexivity | reflexivity].
  - destruct s as [|c r]; [split; [discriminate | intros [x H]; discriminate H]|].
    rewrite andb_true_iff, N.eqb_eq, IH. split.
    + intros [-> [x ->]]. exists x. reflexivity.
    + intros [x H]. injection H as -> ->. split; [reflexivity | exists x; reflexivity].
Qed.

Lemma startsWith_app (pat r : jsstring) : startsWith pat (pat ++ r) = true.
Proof. apply startsWith_iff. exists r. reflexivity. Qed.

Lemma endsWith_app (pat a : jsstring) : endsWith pat (a ++ pat) = true.
Proof. unfold endsWith. rewrite rev_app_distr. apply startsWith_app. Qed.

Lemma indexOf_Some (pat s : jsstring) (i : nat) :
  indexOf pat s = Some i ->
  exists a b, s = a ++ pat ++ b /\ List.length a = i.
Proof.
  revert i. induction s as [|c r IH]; intros i; simpl.
  - destruct (startsWith pat []) eqn:E; [|discriminate].
    intros H. injection H as <-. apply startsWith_iff in E. destruct E as [x E].
    exists [], x. auto.
  - destruct (startsWith pat (c :: r)) eqn:E.
    + intros H. injection H as <-. apply startsWith_iff in E. destruct E as [x E].
      exists [], x. auto.
    + destruct (indexOf pat r) as [j|]; [|discriminate].
      simpl. intros H. injection H as <-.
      destruct (IH j eq_refl) as (a & b & -> & L).
      exists (c :: a), b. simpl. auto.
Qed.

Lemma indexOf_bound (pat s : jsstring) (i : nat) :
  indexOf pat s = Some i -> i + List.length pat <= List.length s.
Proof.
  intros H. destruct (indexOf_Some _ _ _ H) as (a & b & -> & <-).
  rewrite !length_app. lia.
Qed.

Lemma indexOf_firstn_skipn (pat s : jsstring) (i : nat) :
  indexOf pat s = Some i ->
  firstn i s ++ pat ++ skipn (i + List.length pat) s = s.
Proof.
  intros H. destruct (indexOf_Some _ _ _ H) as (a & b & -> & <-).
  rewrite firstn_app, firstn_all, Nat.sub_diag, firstn_O, app_nil_r.
  rewrite skipn_app, skipn_all2 by lia.
  replace (List.length a + List.length pat - List.length a) with (List.length pat) by lia.
  rewrite skipn_app, skipn_all, Nat.sub_diag, skipn_O. reflexivity.
Qed.

Lemma indexOf_None_char (c : N) (s : jsstring) :
  indexOf [c] s = None -> ~ In c s.
Proof.
  induction s as [|x r IH]; simpl; [tauto|].
  destruct (N.eqb c x) eqn:E; simpl; [discriminate|].
  destruct (indexOf [c] r); [discriminate|].
  intros _ [H|H]; [subst; rewrite N.eqb_refl in E; discriminate | exact (IH eq_refl H)].
Qed.

Lemma indexOf_after (c : N) (pr x b : jsstring) :
  ~ In c x ->
  indexOf (c :: pr) (x ++ c :: pr ++ b) = Some (List.length x).
Proof.
  induction x as [|y x IH]; intros H.
  - cbn [app List.length indexOf]. change (c :: pr ++ b) with ((c :: pr) ++ b).
    rewrite startsWith_app. reflexivity.
  - cbn [app indexOf startsWith List.length].
    destruct (N.eqb c y) eqn:E.
    + apply N.eqb_eq in E. subst. exfalso. apply H. left. reflexivity.
    + cbn [andb]. rewrite IH; [reflexivity|]. intros I. apply H. right. exact I.
Qed.

Lemma includes_iff (pat s : jsstring) :
  includes pat s = true <-> exists a b, s = a ++ pat ++ b.
Proof.
  unfold includes. split.
  - destruct (indexOf pat s) as [i|] eqn:E; [|discriminate].
    intros _. destruct (indexOf_Some _ _ _ E) as (a & b & H & _). eauto.
  - intros (a & b & ->). revert b. induction a as [|c a IH]; intros b.
    + cbn [app]. destruct (pat ++ b) eqn:E.
      * destruct pat; [reflexivity | discriminate E].
      * cbn [indexOf]. rewrite <- E, startsWith_app. reflexivity.
    + cbn [app indexOf]. destruct (startsWith pat (c :: a ++ pat ++ b)); [reflexivity|].
      specialize (IH b). destruct (indexOf pat (a ++ pat ++ b)); [reflexivity | discriminate].
Qed.

(** ** The split of [LatexRenderer] *)

Lemma math_match_Some (s : jsstring) (n : nat) :
  math_match s = Some n ->
  exists m rest, s = (DOLLAR :: m ++ [DOLLAR]) ++ rest /\ n = List.length m + 2.
Proof.
  unfold math_match. destruct s as [|c r]; [discriminate|].
  destruct (N.eqb c DOLLAR) eqn:Ec; [|discriminate].
  apply N.eqb_eq in Ec. subst c.
  assert (A2 : option_map (fun k => 1 + k + 1) (indexOf [DOLLAR] r) = Some n ->
               exists m rest, DOLLAR :: r = (DOLLAR :: m ++ [DOLLAR]) ++ rest
                              /\ n = List.length m + 2).
  { destruct (indexOf [DOLLAR] r) as [k|] eqn:E; [|discriminate].
    cbn. intros H. injection H as <-.
    destruct (indexOf_Some _ _ _ E) as (a & b & -> & <-).
    exists a, b. split; [cbn; rewrite <- app_assoc; reflexivity | lia]. }
  destruct r as [|c2 r2]; [exact A2|].
  destruct (N.eqb c2 DOLLAR) eqn:Ec2; [|exact A2].
  apply N.eqb_eq in Ec2. subst c2.
  destruct (indexOf [DOLLAR; DOLLAR] r2) as [j|] eqn:E; [|exact A2].
  cbn. intros H. injection H as <-.
  destruct (indexOf_Some _ _ _ E) as (a & b & -> & <-).
  exists (DOLLAR :: a ++ [DOLLAR]), b. split.
  - cbn. rewrite <- !app_assoc. reflexivity.
  - cbn. rewrite length_app. cbn. lia.
Qed.

Lemma firstn_length_app (A : Type) (l1 l2 : list A) :
  firstn (List.length l1) (l1 ++ l2) = l1.
Proof. induction l1 as [|x l1 IH]; simpl; [reflexivity | rewrite IH; reflexivity]. Qed.

Lemma math_match_parts (s : jsstring) (n : nat) :
  math_match s = Some n ->
  exists m, firstn n s = DOLLAR :: m ++ [DOLLAR]
            /\ s = firstn n s ++ skipn n s
            /\ List.length (skipn n s) + List.length m + 2 = List.length s.
Proof.
  intros H. destruct (math_match_Some _ _ H) as (m & rest & -> & ->).
  assert (L : List.length (DOLLAR :: m ++ [DOLLAR]) = List.length m + 2).
  { cbn. rewrite length_app. cbn. lia. }
  exists m. rewrite <- L.
  rewrite firstn_length_app, skipn_length_app.
  split; [reflexivity|]. split; [reflexivity|].
  rewrite length_app, L. lia.
Qed.

Lemma math_match_None_dollar (r : jsstring) :
  math_match (DOLLAR :: r) = None -> no_dollar r.
Proof.
  unfold math_match. rewrite N.eqb_refl.
  intros H. apply indexOf_None_char.
  destruct (match r with
            | [] => None
            | c2 :: r2 =>
                if N.eqb c2 DOLLAR
                then option_map (fun j => 2 + j + 2) (indexOf [DOLLAR; DOLLAR] r2)
                else None
            end); [discriminate|].
  destruct (indexOf [DOLLAR] r); [discriminate | reflexivity].
Qed.

Lemma math_match_other (c : N) (r : jsstring) :
  c <> DOLLAR -> math_match (c :: r) = None.
Proof.
  intros H. unfold math_match. apply N.eqb_neq in H. rewrite H. reflexivity.
Qed.

Lemma delimited_intro (m : jsstring) : delimited (DOLLAR :: m ++ [DOLLAR]).
Proof.
  unfold delimited. split; [|split].
  - cbn. rewrite length_app. cbn. lia.
  - reflexivity.
  - change (DOLLAR :: m ++ [DOLLAR]) with ((DOLLAR :: m) ++ [DOLLAR]).
    apply endsWith_app.
Qed.

Lemma split_loop_concat (f : nat) (cur s : jsstring) :
  List.concat (split_loop f cur s) = cur ++ s.
Proof.
  revert cur s. induction f as [|f IH]; intros cur s; cbn [split_loop].
  - cbn. apply app_nil_r.
  - destruct s as [|c r]; [cbn; rewrite !app_nil_r; reflexivity|].
    destruct (math_match (c :: r)) as [n|] eqn:E.
    + cbn [List.concat]. rewrite IH. cbn [app]. rewrite firstn_skipn. reflexivity.
    + rewrite IH, <- app_assoc. reflexivity.
Qed.

(** The scan ends by itself: fuel beyond the length of what is left
    changes nothing. *)
Lemma split_loop_fuel (f f' : nat) (cur s : jsstring) :
  List.length s <= f -> List.length s <= f' ->
  split_loop f cur s = split_loop f' cur s.
Proof.
  revert f' cur s. induction f as [|f IH]; intros f' cur s L L'.
  - destruct s; [|cbn in L; lia]. destruct f'; cbn; rewrite ?app_nil_r; reflexivity.
  - destruct s as [|c r].
    + destruct f'; cbn; rewrite ?app_nil_r; reflexivity.
    + destruct f' as [|f']; [cbn in L'; lia|].
      cbn [split_loop]. cbn in L, L'.
      destruct (math_match (c :: r)) as [n|] eqn:E.
      * destruct (math_match_parts _ _ E) as (m & _ & _ & Len). cbn in Len.
        f_equal. f_equal. apply IH; lia.
      * apply IH; lia.
Qed.

Lemma split_fuel (f : nat) (s : jsstring) :
  List.length s <= f -> split s = split_loop f [] s.
Proof. intros L. unfold split. apply split_loop_fuel; [apply Nat.le_refl | exact L]. Qed.

Lemma no_dollar_cons (c : N) (s : jsstring) :
  no_dollar (c :: s) <-> c <> DOLLAR /\ no_dollar s.
Proof.
  unfold no_dollar. cbn. split.
  - intros H. split; [intros E; apply H; left; exact E | intros I; apply H; right; exact I].
  - intros [H1 H2] [E|I]; [exact (H1 E) | exact (H2 I)].
Qed.

Lemma no_dollar_app (a b : jsstring) :
  no_dollar (a ++ b) <-> no_dollar a /\ no_dollar b.
Proof.
  unfold no_dollar. rewrite in_app_iff. tauto.
Qed.

Lemma loop_text (a : jsstring) :
  no_dollar a ->
  forall f cur s,
    split_loop (List.length a + f) cur (a ++ s) = split_loop f (cur ++ a) s.
Proof.
  induction a as [|c a IH]; intros H f cur s.
  - cbn. rewrite app_nil_r. reflexivity.
  - apply no_dollar_cons in H. destruct H as [Hc Ha].
    cbn [List.length Nat.add app split_loop].
    rewrite (math_match_other c (a ++ s) Hc), (IH Ha), <- app_assoc. reflexivity.
Qed.

Lemma loop_end (b : jsstring) (f : nat) (cur : jsstring) :
  no_dollar b -> List.length b <= f ->
  split_loop f cur b = [cur ++ b].
Proof.
  intros H L. rewrite (split_loop_fuel f (List.length b + 0) cur b L) by lia.
  rewrite <- (app_nil_r b) at 2. rewrite (loop_text b H). cbn.
  rewrite app_nil_r. reflexivity.
Qed.

Lemma loop_match (s : jsstring) (n f : nat) (cur : jsstring) :
  math_match s = Some n ->
  split_loop (S f) cur s = cur :: firstn n s :: split_loop f [] (skipn n s).
Proof.
  intros H. destruct s as [|c r]; [discriminate H|].
  cbn [split_loop]. rewrite H. reflexivity.
Qed.

Lemma split_alternating (f : nat) (cur s : jsstring) :
  List.length s <= f ->
  no_dollar cur \/ no_dollar s ->
  alternating (split_loop f cur s).
Proof.
  revert cur s. induction f as [|f IH]; intros cur s L I.
  - cbn. trivial.
  - destruct s as [|c r]; [cbn; trivial|].
    cbn [split_loop]. cbn in L.
    destruct (math_match (c :: r)) as [n|] eqn:E.
    + destruct (math_match_parts _ _ E) as (m & F & S & Len). cbn in Len.
      assert (Hc : no_dollar cur).
      { destruct I as [I|I]; [exact I|]. exfalso.
        destruct (math_match_Some _ _ E) as (m' & rest & Eq & _).
        apply I. rewrite Eq. left. reflexivity. }
      cbn [alternating]. split; [exact Hc|]. split.
      * rewrite F. apply delimited_intro.
      * apply IH; [lia | left; intros []].
    + apply IH; [lia|].
      destruct (N.eq_dec c DOLLAR) as [->|Hc].
      * right. apply math_match_None_dollar. exact E.
      * destruct I as [I|I].
        -- left. apply no_dollar_app. split; [exact I|].
           apply no_dollar_cons. split; [exact Hc | intros []].
        -- right. apply no_dollar_cons in I. tauto.
Qed.

Lemma no_dollar_check (s : jsstring) :
  forallb (fun c => negb (N.eqb c DOLLAR)) s = true -> no_dollar s.
Proof.
  intros H I. rewrite forallb_forall in H. specialize (H _ I).
  rewrite N.eqb_refl in H. discriminate H.
Qed.

Lemma indexOf_no_char (c : N) (s : jsstring) :
  ~ In c s -> indexOf [c] s = None.
Proof.
  induction s as [|x r IH]; intros H; cbn [indexOf startsWith]; [reflexivity|].
  destruct (N.eqb c x) eqn:E.
  - apply N.eqb_eq in E. subst. exfalso. apply H. left. reflexivity.
  - cbn [andb]. rewrite IH; [reflexivity|]. intros I. apply H. right. exact I.
Qed.

Lemma math_match_block (x b : jsstring) :
  no_dollar x ->
  math_match ((DOLLAR :: DOLLAR :: x ++ [DOLLAR; DOLLAR]) ++ b)
  = Some (List.length x + 4).
Proof.
  intros H. cbn [app]. rewrite <- app_assoc. cbn [app].
  unfold math_match. rewrite !N.eqb_refl.
  change (x ++ DOLLAR :: DOLLAR :: b) with (x ++ DOLLAR :: [DOLLAR] ++ b).
  rewrite (indexOf_after DOLLAR [DOLLAR] x b H). cbn. f_equal. lia.
Qed.

Lemma math_match_inline (x b : jsstring) :
  no_dollar x -> x <> [] ->
  math_match ((DOLLAR :: x ++ [DOLLAR]) ++ b) = Some (List.length x + 2).
Proof.
  intros H N. destruct x as [|c x]; [congruence|].
  apply no_dollar_cons in H. destruct H as [Hc Hx].
  cbn [app]. rewrite <- app_assoc. cbn [app].
  unfold math_match. rewrite N.eqb_refl.
  apply N.eqb_neq in Hc. rewrite Hc.
  change (c :: x ++ DOLLAR :: b) with ((c :: x) ++ DOLLAR :: [] ++ b).
  rewrite (indexOf_after DOLLAR [] (c :: x) b).
  - cbn. f_equal. lia.
  - apply no_dollar_cons. split; [apply N.eqb_neq; exact Hc | exact Hx].
Qed.

Lemma math_match_empty_inline (b : jsstring) :
  no_dollar b -> math_match ([DOLLAR; DOLLAR] ++ b) = Some 2.
Proof.
  intros H. cbn [app]. unfold math_match. rewrite !N.eqb_refl.
  assert (E : indexOf [DOLLAR; DOLLAR] b = None).
  { destruct (indexOf [DOLLAR; DOLLAR] b) as [j|] eqn:E; [|reflexivity].
    exfalso. destruct (indexOf_Some _ _ _ E) as (p & q & -> & _).
    apply H. apply in_or_app. right. left. reflexivity. }
  rewrite E. cbn [option_map indexOf startsWith]. rewrite N.eqb_refl. reflexivity.
Qed.

Lemma math_match_unclosed (b : jsstring) :
  no_dollar b -> math_match (DOLLAR :: b) = None.
Proof.
  intros H. unfold math_match. rewrite N.eqb_refl.
  rewrite (indexOf_no_char DOLLAR b H).
  destruct b as [|c r]; [reflexivity|].
  apply no_dollar_cons in H. destruct H as [Hc _].
  apply N.eqb_neq in Hc. rewrite Hc. reflexivity.
Qed.

Lemma render_text (t : jsstring) :
  startsWith [DOLLAR] t = false -> render_part t = Span t.
Proof.
  intros H. unfold render_part. rewrite H.
  destruct t as [|c r]; [reflexivity|].
  cbn [startsWith] in H. cbn [startsWith]. rewrite andb_true_r in H.
  rewrite H. reflexivity.
Qed.

Lemma render_no_dollar (t : jsstring) :
  no_dollar t -> render_part t = Span t.
Proof.
  intros H. apply render_text. destruct t as [|c r]; [reflexivity|].
  apply no_dollar_cons in H. destruct H as [Hc _].
  cbn [startsWith]. rewrite andb_true_r. apply N.eqb_neq. congruence.
Qed.

Lemma render_no_dollar_head (c : N) (r : jsstring) :
  c <> DOLLAR -> render_part (c :: r) = Span (c :: r).
Proof.
  intros Hc. apply render_text. cbn [startsWith]. rewrite andb_true_r.
  apply N.eqb_neq. congruence.
Qed.

Lemma endsWith_dollar_false (p s : jsstring) :
  no_dollar s -> s <> [] -> endsWith [DOLLAR] (p ++ s) = false.
Proof.
  intros H N. unfold endsWith. rewrite rev_app_distr.
  destruct (rev s) as [|y l] eqn:R.
  - exfalso. apply N. rewrite <- (rev_involutive s), R. reflexivity.
  - cbn [rev app startsWith].
    destruct (N.eqb DOLLAR y) eqn:E; [|reflexivity].
    apply N.eqb_eq in E. exfalso. apply H. apply in_rev. rewrite R.
    left. symmetry. exact E.
Qed.

Lemma render_block (x : jsstring) :
  render_part (DOLLAR :: DOLLAR :: x ++ [DOLLAR; DOLLAR]) = BlockMath (trim x).
Proof.
  unfold render_part.
  assert (E : endsWith [DOLLAR; DOLLAR] (DOLLAR :: DOLLAR :: x ++ [DOLLAR; DOLLAR]) = true)
    by apply (endsWith_app [DOLLAR; DOLLAR] (DOLLAR :: DOLLAR :: x)).
  rewrite E. cbn [startsWith]. rewrite !N.eqb_refl. cbn [andb].
  unfold slice. cbn [skipn List.length]. rewrite length_app. cbn [List.length].
  replace (S (S (List.length x + 2)) - 2 - 2) with (List.length x) by lia.
  rewrite firstn_length_app. reflexivity.
Qed.

Lemma render_inline (c : N) (x : jsstring) :
  c <> DOLLAR ->
  render_part (DOLLAR :: (c :: x) ++ [DOLLAR]) = InlineMath (trim (c :: x)).
Proof.
  intros Hc. unfold render_part.
  assert (E1 : endsWith [DOLLAR] (DOLLAR :: (c :: x) ++ [DOLLAR]) = true)
    by apply (endsWith_app [DOLLAR] (DOLLAR :: c :: x)).
  rewrite E1. cbn [startsWith app].
  rewrite N.eqb_refl. cbn [andb].
  assert (E : N.eqb DOLLAR c = false) by (apply N.eqb_neq; congruence).
  rewrite E. cbn [andb].
  unfold slice. cbn [skipn List.length]. rewrite length_app. cbn [List.length].
  replace (S (S (List.length x + 1)) - 1 - 1) with (List.length (c :: x)) by (cbn; lia).
  change (c :: x ++ [DOLLAR]) with ((c :: x) ++ [DOLLAR]).
  rewrite firstn_length_app. reflexivity.
Qed.

Lemma render_delimited (m : jsstring) :
  delimited m -> is_span (render_part m) = false.
Proof.
  intros (_ & S & E). unfold render_part. rewrite S, E.
  destruct (startsWith [DOLLAR; DOLLAR] m && endsWith [DOLLAR; DOLLAR] m); reflexivity.
Qed.

Lemma alternating_odd (parts : list jsstring) :
  alternating parts ->
  Nat.odd (List.length parts) = true
  /\ forall i, Nat.odd i = true -> i < List.length parts ->
       delimited (nth i parts []).
Proof.
  remember (List.length parts) as n eqn:Hn. revert parts Hn.
  induction n as [n IH] using lt_wf_ind. intros parts Hn A.
  destruct parts as [|t [|m rest]]; [destruct A| |].
  - subst. split; [reflexivity|]. intros [|i] O L; [discriminate O | cbn in L; lia].
  - cbn [alternating] in A. destruct A as (_ & D & A).
    destruct (IH (List.length rest)) with (parts := rest) as [O1 N1];
      [subst; cbn; lia | reflexivity | exact A |].
    subst n. split.
    + cbn [List.length]. rewrite Nat.odd_succ, Nat.even_succ. exact O1.
    + intros [|[|i]] O L; [discriminate O | exact D |].
      cbn [nth]. apply N1; [|cbn in L; lia].
      rewrite Nat.odd_succ, Nat.even_succ in O. exact O.
Qed.

(** ** What [LatexRenderer] shows *)

(** X1: the split loses nothing and adds nothing: the parts, put
    together again, are the content. *)
Theorem latex_split_round_trip (content : jsstring) :
  List.concat (split content) = content.
Proof. unfold split. apply split_loop_concat. Qed.

(** X2: the parts come as text, formula, text, ..., text: there is an
    odd number of them, every second one opens and closes with a
    dollar and is shown as a formula, never as plain text, and no text
    before the last one holds a dollar. *)
Theorem latex_split_alternates (content : jsstring) :
  alternating (split content)
  /\ Nat.odd (List.length (LatexRenderer_view content)) = true
  /\ forall i, Nat.odd i = true -> i < List.length (LatexRenderer_view content) ->
       is_span (nth i (LatexRenderer_view content) (Span [])) = false.
Proof.
  assert (A : alternating (split content)).
  { unfold split. apply split_alternating; [apply Nat.le_refl | left; intros []]. }
  destruct (alternating_odd _ A) as [O D].
  unfold LatexRenderer_view. rewrite length_map.
  split; [exact A|]. split; [exact O|].
  intros i Oi Li.
  change (Span []) with (render_part []). rewrite map_nth.
  apply render_delimited. apply D; assumption.
Qed.

(** X3: a content without a dollar is shown as one piece of plain
    text, unchanged. *)
Theorem latex_plain_text (content : jsstring) :
  no_dollar content ->
  LatexRenderer_view content = [Span content].
Proof.
  intros H. unfold LatexRenderer_view, split.
  rewrite (loop_end content (List.length content) [] H (Nat.le_refl _)).
  cbn [map app]. rewrite (render_no_dollar content H). reflexivity.
Qed.

(** An answer with no formula in it. *)
Lemma latex_plain_text_witness :
  LatexRenderer_view (lit "See diagram.") = [Span (lit "See diagram.")].
Proof.
  apply latex_plain_text. apply no_dollar_check. reflexivity.
Defined.

(** X4: [a$$x$$b], with no other dollar around, is shown as the text
    [a], the display formula [x] without the white space around it,
    and the text [b]. *)
Theorem latex_display_math (a x b : jsstring) :
  no_dollar a -> no_dollar x -> no_dollar b ->
  LatexRenderer_view (a ++ [DOLLAR; DOLLAR] ++ x ++ [DOLLAR; DOLLAR] ++ b)
  = [Span a; BlockMath (trim x); Span b].
Proof.
  intros Ha Hx Hb. unfold LatexRenderer_view.
  replace (a ++ [DOLLAR; DOLLAR] ++ x ++ [DOLLAR; DOLLAR] ++ b)
    with (a ++ (DOLLAR :: DOLLAR :: x ++ [DOLLAR; DOLLAR]) ++ b)
    by (cbn [app]; rewrite <- app_assoc; reflexivity).
  rewrite (split_fuel (List.length a + S (List.length x + 3 + List.length b)))
    by (rewrite !length_app; cbn [List.length]; rewrite length_app; cbn [List.length]; lia).
  rewrite (loop_text a Ha), (loop_match _ (List.length x + 4) _ _ (math_match_block x b Hx)).
  assert (L : List.length (DOLLAR :: DOLLAR :: x ++ [DOLLAR; DOLLAR]) = List.length x + 4)
    by (cbn [List.length]; rewrite length_app; cbn [List.length]; lia).
  rewrite <- L, firstn_length_app, skipn_length_app.
  rewrite (loop_end b _ [] Hb) by lia.
  cbn [map app].
  rewrite render_block, (render_no_dollar a Ha), (render_no_dollar b Hb).
  reflexivity.
Qed.

(** A formula over two lines inside a sentence. *)
Lemma latex_display_math_witness :
  LatexRenderer_view
    (lit "Area: " ++ [DOLLAR; DOLLAR] ++ [32; 10] ++ lit "A = \pi r^2" ++ [10]
       ++ [DOLLAR; DOLLAR] ++ lit " done")%N
  = [Span (lit "Area: "); BlockMath (lit "A = \pi r^2"); Span (lit " done")].
Proof.
  exact (latex_display_math (lit "Area: ") ([32; 10] ++ lit "A = \pi r^2" ++ [10])%N
           (lit " done")
           (no_dollar_check (lit "Area: ") eq_refl)
           (no_dollar_check ([32; 10] ++ lit "A = \pi r^2" ++ [10])%N eq_refl)
           (no_dollar_check (lit " done") eq_refl)).
Defined.

(** X5: [a$x$b], with [x] not empty and no other dollar around, is
    shown as the text [a], the inline formula [x] without the white
    space around it, and the text [b]. *)
Theorem latex_inline_math (a x b : jsstring) :
  no_dollar a -> no_dollar x -> no_dollar b -> x <> [] ->
  LatexRenderer_view (a ++ [DOLLAR] ++ x ++ [DOLLAR] ++ b)
  = [Span a; InlineMath (trim x); Span b].
Proof.
  intros Ha Hx Hb Ne. unfold LatexRenderer_view.
  replace (a ++ [DOLLAR] ++ x ++ [DOLLAR] ++ b)
    with (a ++ (DOLLAR :: x ++ [DOLLAR]) ++ b)
    by (cbn [app]; rewrite <- app_assoc; reflexivity).
  rewrite (split_fuel (List.length a + S (List.length x + 1 + List.length b)))
    by (rewrite !length_app; cbn [List.length]; rewrite length_app; cbn [List.length]; lia).
  rewrite (loop_text a Ha),
    (loop_match _ (List.length x + 2) _ _ (math_match_inline x b Hx Ne)).
  assert (L : List.length (DOLLAR :: x ++ [DOLLAR]) = List.length x + 2)
    by (cbn [List.length]; rewrite length_app; cbn [List.length]; lia).
  rewrite <- L, firstn_length_app, skipn_length_app.
  rewrite (loop_end b _ [] Hb) by lia.
  cbn [map app]. rewrite (render_no_dollar a Ha), (render_no_dollar b Hb).
  destruct x as [|c x]; [congruence|].
  apply no_dollar_cons in Hx. destruct Hx as [Hc _].
  rewrite (render_inline c x Hc). reflexivity.
Qed.

(** The first end-to-end scenario: "The answer is $x=2$." *)
Lemma latex_inline_math_witness :
  LatexRenderer_view (lit "The answer is $x=2$.")
  = [Span (lit "The answer is "); InlineMath (lit "x=2"); Span (lit ".")].
Proof.
  exact (latex_inline_math (lit "The answer is ") (lit "x=2") (lit ".")
           (no_dollar_check (lit "The answer is ") eq_refl)
           (no_dollar_check (lit "x=2") eq_refl)
           (no_dollar_check (lit ".") eq_refl)
           (fun E => match E in _ = l return match l with [] => False | _ => True end
                     with eq_refl => Logic.I end)).
Defined.

(** X6: two dollars with nothing between them, [a$$b], are taken by
    the inline alternative of the pattern but shown as an empty
    display formula, since the piece both starts and ends with [$$]. *)
Theorem latex_empty_inline_is_display (a b : jsstring) :
  no_dollar a -> no_dollar b ->
  LatexRenderer_view (a ++ [DOLLAR; DOLLAR] ++ b)
  = [Span a; BlockMath []; Span b].
Proof.
  intros Ha Hb. unfold LatexRenderer_view.
  rewrite (split_fuel (List.length a + S (1 + List.length b)))
    by (rewrite !length_app; cbn [List.length]; lia).
  rewrite (loop_text a Ha), (loop_match _ 2 _ _ (math_match_empty_inline b Hb)).
  cbn [firstn skipn app]. rewrite (loop_end b _ [] Hb) by lia.
  cbn [map app]. rewrite (render_no_dollar a Ha), (render_no_dollar b Hb).
  reflexivity.
Qed.

Lemma latex_empty_inline_is_display_witness :
  LatexRenderer_view (lit "costs $$ today")
  = [Span (lit "costs "); BlockMath []; Span (lit " today")].
Proof.
  exact (latex_empty_inline_is_display (lit "costs ") (lit " today")
           (no_dollar_check (lit "costs ") eq_refl)
           (no_dollar_check (lit " today") eq_refl)).
Defined.

(** X7: a content with a single dollar has no formula: it is shown as
    one piece of plain text, dollar included; except when the content
    is the dollar alone, which is shown as an empty inline formula. *)
Theorem latex_lone_dollar (a b : jsstring) :
  no_dollar a -> no_dollar b ->
  LatexRenderer_view (a ++ [DOLLAR] ++ b)
  = [match a, b with
     | [], [] => InlineMath []
     | _, _ => Span (a ++ [DOLLAR] ++ b)
     end].
Proof.
  intros Ha Hb. unfold LatexRenderer_view.
  rewrite (split_fuel (List.length a + S (List.length b)))
    by (rewrite !length_app; cbn [List.length]; lia).
  rewrite (loop_text a Ha). cbn [app split_loop].
  rewrite (math_match_unclosed b Hb), (loop_end b _ _ Hb) by lia.
  cbn [map app]. rewrite <- app_assoc. cbn [app]. f_equal.
  destruct a as [|c a].
  - destruct b as [|d b]; [reflexivity|].
    cbn [app]. unfold render_part.
    assert (Hd : N.eqb DOLLAR d = false).
    { apply no_dollar_cons in Hb. apply N.eqb_neq. intros E. apply (proj1 Hb).
      symmetry. exact E. }
    assert (E : endsWith [DOLLAR] (DOLLAR :: d :: b) = false).
    { apply (endsWith_dollar_false [DOLLAR] (d :: b) Hb). discriminate. }
    cbn [startsWith]. rewrite Hd, E, N.eqb_refl. reflexivity.
  - cbn [app]. apply render_no_dollar_head.
    apply no_dollar_cons in Ha. exact (proj1 Ha).
Qed.

(** A sample with a formula in the middle. *)
Lemma latex_split_alternates_witness :
  is_span (nth 1 (LatexRenderer_view (lit "The answer is $x=2$.")) (Span [])) = false.
Proof.
  exact (proj2 (proj2 (latex_split_alternates (lit "The answer is $x=2$.")))
           1 eq_refl (le_S 2 2 (le_n 2))).
Defined.

(** The dollar of a price. *)
Lemma latex_lone_dollar_witness :
  LatexRenderer_view (lit "It costs $5.") = [Span (lit "It costs $5.")].
Proof.
  exact (latex_lone_dollar (lit "It costs ") (lit "5.")
           (no_dollar_check (lit "It costs ") eq_refl)
           (no_dollar_check (lit "5.") eq_refl)).
Defined.

(** ** More on the page *)

Lemma step_posts (w w' : World) (ev : Event) :
  step w ev = Some w' ->
  exists l, trace w' = trace w ++ l
            /\ List.length (posts l) = if starts_submission ev then 1 else 0.
Proof.
  intros H. destruct (starts_submission ev) eqn:Q.
  - destruct ev as [[|file rest]| |r| |[b|] url|id r|res]; try discriminate Q;
      step_cases H; unfold run_handler.
    + rewrite handleFileSelect_run. eexists. split; reflexivity.
    + rewrite toBlob_callback_run. eexists. split; reflexivity.
  - destruct (step_trace _ _ _ H) as (l & T & _ & P).
    exists l. split; [exact T|]. rewrite (P Q). reflexivity.
Qed.

(** X8: one request per image and never more: the number of requests
    sent in a run is the number of files chosen plus the number of
    frames encoded.  A request that fails is not sent again. *)
Theorem one_request_per_image (evs : list Event) (w w' : World) :
  run w evs = Some w' ->
  List.length (posts (emitted w w')) = submissions evs.
Proof.
  revert w. induction evs as [|ev r IH]; intros w H; cbn [run] in H.
  - injection H as <-. unfold emitted. rewrite skipn_all. reflexivity.
  - destruct (step w ev) as [w1|] eqn:E; [|discriminate].
    destruct (step_posts _ _ _ E) as (l1 & T1 & P1).
    specialize (IH _ H).
    destruct (run_trace _ _ _ H) as (l2 & T2 & _).
    rewrite (emitted_app w1 w' l2 T2) in IH.
    rewrite (emitted_app w w' (l1 ++ l2)) by (rewrite T2, T1, app_assoc; reflexivity).
    rewrite posts_app, length_app, P1, IH.
    unfold submissions. cbn [filter].
    destruct (starts_submission ev); reflexivity.
Qed.

(** Two files chosen, the first request rejected: two requests. *)
Lemma one_request_per_image_witness :
  List.length
    (posts (emitted initial
       (after [ChooseFile [sample_blob]; PostSettled 0 (Rejected []);
               ChooseFile [other_blob]]))) = 2.
Proof.
  refine (one_request_per_image
            [ChooseFile [sample_blob]; PostSettled 0 (Rejected []);
             ChooseFile [other_blob]] initial _ _).
  vm_compute. reflexivity.
Defined.

Lemma settle_not_inflight (id : nat) (w : World) :
  is_inflight id (settle id w) = false.
Proof.
  unfold is_inflight, settle. cbn [inflight with_requests].
  induction (inflight w) as [|[i fd] l IH]; [reflexivity|].
  cbn [filter fst]. destruct (Nat.eqb i id) eqn:E; cbn [negb]; [exact IH|].
  cbn [existsb fst]. rewrite E. exact IH.
Qed.

(** X9: when a request comes back with a response, its data become
    the answer as they are, the loading flag is lowered, the request
    is no longer in flight, and the page shows what [ResponseRenderer]
    makes of the data and nothing else. *)
Theorem response_passes_through (w w' : World) (id : nat) (data : Answer) :
  step w (PostSettled id (Resolved data)) = Some w' ->
  answer_st w' = Some data /\ loading w' = false
  /\ is_inflight id w' = false
  /\ emitted w w' = [SetAnswer (Some data); SetLoading false]
  /\ pieces (ImageUploader w') = pieces (ResponseRenderer data).
Proof.
  intros H. step_cases H. unfold run_handler. rewrite uploadImage_settled_run.
  repeat (apply conj); try reflexivity.
  - apply (settle_not_inflight id w).
  - apply emitted_app. reflexivity.
  - rewrite pieces_ImageUploader. reflexivity.
Qed.

(** The second end-to-end scenario, after a file was chosen. *)
Lemma response_passes_through_witness :
  pieces (ImageUploader
            (after [ChooseFile [sample_blob];
                    PostSettled 0 (Resolved success_with_diagram)]))
  = pieces (ResponseRenderer success_with_diagram).
Proof.
  refine (proj2 (proj2 (proj2 (proj2
    (response_passes_through
       (after [ChooseFile [sample_blob]])
       (after [ChooseFile [sample_blob];
               PostSettled 0 (Resolved success_with_diagram)])
       0 success_with_diagram _))))).
  vm_compute. reflexivity.
Defined.

(** X10: the callback of [canvas.toBlob] does not clear the answer.
    If a result has appeared between the click on Capture and the
    callback, the new request goes out with that result still on the
    page, next to the loading indicator. *)
Theorem callback_keeps_stale_answer (w w' : World) (X : Answer) (b : Blob)
    (url : jsstring) :
  answer_st w = Some X ->
  step w (ToBlobDone (Some b) url) = Some w' ->
  answer_st w' = Some X /\ loading w' = true
  /\ posts (emitted w w') = [AxiosPost (nextId w) (lit "/ask") (form_of b)]
  /\ pieces (ImageUploader w') = Spinner :: pieces (ResponseRenderer X).
Proof.
  intros A H. step_cases H. unfold run_handler, toBlob_callback.
  rewrite toBlob_callback_run.
  repeat (apply conj); try reflexivity.
  - exact A.
  - erewrite emitted_app by reflexivity. reflexivity.
  - rewrite pieces_ImageUploader. cbn. rewrite A. reflexivity.
Qed.

(** The first request comes back between Capture and the callback. *)
Lemma callback_keeps_stale_answer_witness :
  exists w',
    step stale_result (ToBlobDone (Some other_blob) []) = Some w'
    /\ pieces (ImageUploader w') = [Spinner; AnswerText (lit "The answer is $x=2$.")].
Proof.
  exists (after [ChooseFile [sample_blob]; ClickTakePhoto; MediaSettled (inl [7; 8]);
                 ClickCapture; PostSettled 0 (Resolved success_plain);
                 ToBlobDone (Some other_blob) []]).
  split; [vm_compute; reflexivity|].
  refine (proj2 (proj2 (proj2
    (callback_keeps_stale_answer stale_result _ success_plain other_blob [] _ _)))).
  - vm_compute. reflexivity.
  - vm_compute. reflexivity.
Defined.

(** "Take Photo", permission granted, "Capture", from the start. *)
Lemma stream_not_attached_witness :
  exists w1 w2,
    step (after [ClickTakePhoto]) (MediaSettled (inl [5; 6])) = Some w1
    /\ videoRef w1 = Some (mkVideo None)
    /\ step w1 ClickCapture = Some w2
    /\ stopped w2 = [] /\ showCamera w2 = true.
Proof.
  exists (after [ClickTakePhoto; MediaSettled (inl [5; 6])]),
         (after [ClickTakePhoto; MediaSettled (inl [5; 6]); ClickCapture]).
  assert (S1 : step (after [ClickTakePhoto]) (MediaSettled (inl [5; 6]))
               = Some (after [ClickTakePhoto; MediaSettled (inl [5; 6])]))
    by (vm_compute; reflexivity).
  assert (S2 : step (after [ClickTakePhoto; MediaSettled (inl [5; 6])]) ClickCapture
               = Some (after [ClickTakePhoto; MediaSettled (inl [5; 6]); ClickCapture]))
    by (vm_compute; reflexivity).
  destruct (stream_not_attached [ClickTakePhoto] (after [ClickTakePhoto])
              (after [ClickTakePhoto; MediaSettled (inl [5; 6])]) [5; 6]
              eq_refl eq_refl S1) as (V & _ & K).
  destruct (K _ S2) as [St Sh].
  repeat (apply conj); assumption.
Defined.

(** X12: when the camera is granted, the camera view opens and the
    answer on the page is cleared, but the loading flag is left as it
    is and nothing is sent: with no submission under way the page then
    shows neither an answer nor the loading indicator. *)
Theorem camera_start_clears_answer (w w' : World) (stream : MediaStream) :
  step w (MediaSettled (inl stream)) = Some w' ->
  showCamera w' = true /\ answer_st w' = None
  /\ loading w' = loading w /\ selectedImage w' = selectedImage w
  /\ inflight w' = inflight w
  /\ posts (emitted w w') = []
  /\ pieces (ImageUploader w') = if loading w then [Spinner] else [].
Proof.
  intros H. destruct (step_trace _ _ _ H) as (l & T & _ & P).
  rewrite (emitted_app _ _ _ T), (P eq_refl).
  step_cases H. unfold run_handler. rewrite startCamera_settled_run.
  destruct w as [? ? lo ? [v|] ? ? ? ? ? ? ? ?];
    repeat (apply conj);
    try (rewrite pieces_ImageUploader; cbn; destruct lo; reflexivity);
    reflexivity.
Qed.

(** A result is on the page when the camera is granted. *)
Lemma camera_start_clears_answer_witness :
  exists w',
    step (after [ChooseFile [sample_blob]; PostSettled 0 (Resolved success_plain);
                 ClickTakePhoto])
         (MediaSettled (inl [1])) = Some w'
    /\ pieces (ImageUploader w') = [].
Proof.
  exists (after [ChooseFile [sample_blob]; PostSettled 0 (Resolved success_plain);
                 ClickTakePhoto; MediaSettled (inl [1])]).
  assert (S1 : step (after [ChooseFile [sample_blob];
                            PostSettled 0 (Resolved success_plain); ClickTakePhoto])
                 (MediaSettled (inl [1]))
               = Some (after [ChooseFile [sample_blob];
                              PostSettled 0 (Resolved success_plain);
                              ClickTakePhoto; MediaSettled (inl [1])]))
    by (vm_compute; reflexivity).
  split; [exact S1|].
  exact (proj2 (proj2 (proj2 (proj2 (proj2 (proj2
           (camera_start_clears_answer _ _ [1] S1))))))).
Defined.

(** X13: a file chooser closed without a file changes nothing: the
    page is the same, answer included, the loading flag is not raised
    and nothing is sent. *)
Theorem no_file_no_change (w w' : World) :
  step w (ChooseFile []) = Some w' ->
  ImageUploader w' = ImageUploader w
  /\ answer_st w' = answer_st w /\ loading w' = loading w
  /\ inflight w' = inflight w
  /\ emitted w w' = [].
Proof.
  intros H. step_cases H. unfold run_handler. cbn.
  repeat (apply conj); try reflexivity.
  apply emitted_app. rewrite app_nil_r. reflexivity.
Qed.

(** A result stays on the page. *)
Lemma no_file_no_change_witness :
  exists w',
    step (with_answer (Some success_plain) initial) (ChooseFile []) = Some w'
    /\ answer_st w' = Some success_plain.
Proof.
  exists (with_answer (Some success_plain) initial).
  split; [reflexivity|].
  exact (proj1 (proj2 (no_file_no_change (with_answer (Some success_plain) initial)
                         (with_answer (Some success_plain) initial) eq_refl))).
Defined.

Lemma settle_keeps_others (id id' : nat) (w : World) :
  id <> id' -> is_inflight id' (settle id w) = is_inflight id' w.
Proof.
  intros N. unfold is_inflight, settle. cbn [inflight with_requests].
  induction (inflight w) as [|[i fd] l IH]; [reflexivity|].
  cbn [filter fst existsb]. destruct (Nat.eqb i id) eqn:E; cbn [negb].
  - apply Nat.eqb_eq in E. subst i.
    assert (E' : Nat.eqb id id' = false) by (apply Nat.eqb_neq; exact N).
    rewrite E'. exact IH.
  - cbn [existsb fst]. rewrite IH. reflexivity.
Qed.

Lemma no_spinner_in_answer (a : Answer) :
  ~ In Spinner (pieces (ResponseRenderer a)).
Proof.
  rewrite pieces_ResponseRenderer. destruct (hasDiagram a); cbn; intros H;
    repeat (destruct H as [H|H]; [discriminate H|]); exact H.
Qed.

(** X14: the loading flag is one boolean for all requests.  When one
    of two requests in flight settles, the flag is lowered and the
    loading indicator leaves the page although the other request is
    still out. *)
Theorem spinner_gone_while_request_pending (w w' : World) (id id' : nat)
    (r : AxiosResult) :
  id <> id' ->
  is_inflight id' w = true ->
  step w (PostSettled id r) = Some w' ->
  loading w' = false /\ is_inflight id' w' = true
  /\ ~ In Spinner (pieces (ImageUploader w')).
Proof.
  intros N I H. step_cases H. unfold run_handler. rewrite uploadImage_settled_run.
  destruct r as [data|error]; (split; [reflexivity|]); (split;
    [change (is_inflight id' (settle id w) = true);
     rewrite (settle_keeps_others id id' w N); exact I|]);
    rewrite pieces_ImageUploader; cbn [app loading answer_st commit with_videoRef
      with_trace with_loading with_answer]; apply no_spinner_in_answer.
Qed.

(** Two files chosen one after the other; the first request settles. *)
Lemma spinner_gone_while_request_pending_witness :
  exists w',
    step (after [ChooseFile [sample_blob]; ChooseFile [other_blob]])
         (PostSettled 0 (Resolved success_plain)) = Some w'
    /\ loading w' = false /\ is_inflight 1 w' = true.
Proof.
  exists (after [ChooseFile [sample_blob]; ChooseFile [other_blob];
                 PostSettled 0 (Resolved success_plain)]).
  assert (S1 : step (after [ChooseFile [sample_blob]; ChooseFile [other_blob]])
                 (PostSettled 0 (Resolved success_plain))
               = Some (after [ChooseFile [sample_blob]; ChooseFile [other_blob];
                              PostSettled 0 (Resolved success_plain)]))
    by (vm_compute; reflexivity).
  split; [exact S1|].
  destruct (spinner_gone_while_request_pending
              (after [ChooseFile [sample_blob]; ChooseFile [other_blob]])
              (after [ChooseFile [sample_blob]; ChooseFile [other_blob];
                      PostSettled 0 (Resolved success_plain)])
              0 1 (Resolved success_plain)
              (fun E => match E in _ = n return match n with 0 => True | S _ => False end
                        with eq_refl => Logic.I end)
              eq_refl S1) as (L & I & _).
  split; assumption.
Defined.

(** ** The 3D viewer *)

Lemma trim_empty_blank (s : jsstring) :
  jsstring_eqb (trim s) [] = forallb is_ws s.
Proof.
  unfold jsstring_eqb. destruct (list_eq_dec N.eq_dec (trim s) []) as [E|E].
  - symmetry. apply trim_nil_iff. exact E.
  - destruct (forallb is_ws s) eqn:W; [|reflexivity].
    apply trim_nil_iff in W. contradiction.
Qed.

Lemma handleARClick_blank (svgContent : jsstring) (v : ViewState) :
  handleARClick svgContent v =
  if blank (Some svgContent)
  then mkView (showAR v)
         (Some (lit "Cannot load 3D view: SVG content is empty"))
         (forceModelShow v) (timers v ++ [ClearLoadingError])
  else mkView true (loadingError v) true (timers v ++ [ModelLoadComplete]).
Proof.
  unfold handleARClick. rewrite trim_empty_blank. cbn [blank].
  destruct svgContent as [|c r]; [reflexivity|]. reflexivity.
Qed.

(** X15: "View in 3D" opens the viewer and announces the loading
    exactly when the content is not blank, and otherwise only shows
    the error; since [ResponseRenderer] renders [SVGRenderer] for a
    diagram that is not blank only, a click that comes from an answer
    always opens the viewer and never shows the error. *)
Theorem view3d_opens_for_rendered_diagram (data : Answer) (v : ViewState) :
  (forall svgContent, blank (Some svgContent) = true ->
     showAR (handleARClick svgContent v) = showAR v
     /\ forceModelShow (handleARClick svgContent v) = forceModelShow v
     /\ loadingError (handleARClick svgContent v)
        = Some (lit "Cannot load 3D view: SVG content is empty"))
  /\ (forall svgContent, svgContent_of data = Some svgContent ->
     showAR (handleARClick svgContent v) = true
     /\ forceModelShow (handleARClick svgContent v) = true
     /\ loadingError (handleARClick svgContent v) = loadingError v
     /\ timers (handleARClick svgContent v) = timers v ++ [ModelLoadComplete]).
Proof.
  split.
  - intros svg B. rewrite handleARClick_blank, B. repeat (apply conj); reflexivity.
  - intros svg H. unfold svgContent_of in H.
    destruct (hasDiagram data) eqn:D; [|discriminate H]. injection H as <-.
    rewrite hasDiagram_blank in D. apply negb_true_iff in D.
    destruct (diagram data) as [d|] eqn:Ed; [|discriminate D].
    rewrite or_empty_some, handleARClick_blank, D.
    repeat (apply conj); reflexivity.
Qed.

(** The diagram of the second end-to-end scenario. *)
Lemma view3d_opens_for_rendered_diagram_witness :
  showAR (handleARClick sample_svg (mkView false None false [])) = true.
Proof.
  exact (proj1 (proj2 (view3d_opens_for_rendered_diagram success_with_diagram
                         (mkView false None false []))
                  sample_svg eq_refl)).
Defined.

Lemma includes_rev (pat s : jsstring) :
  includes pat s = true -> includes (rev pat) (rev s) = true.
Proof.
  rewrite !includes_iff. intros (a & b & ->).
  exists (rev b), (rev a). rewrite !rev_app_distr, <- app_assoc. reflexivity.
Qed.

Lemma includes_trimStart (p : N) (pat s : jsstring) :
  is_ws p = false ->
  includes (p :: pat) s = true -> includes (p :: pat) (trimStart s) = true.
Proof.
  intros Hp. induction s as [|c r IH]; intros H; [exact H|].
  cbn [trimStart]. destruct (is_ws c) eqn:W; [|exact H].
  apply IH. unfold includes in *. cbn [indexOf startsWith] in H.
  destruct (N.eqb p c) eqn:E.
  - apply N.eqb_eq in E. subst. congruence.
  - cbn [andb] in H. destruct (indexOf (p :: pat) r); [reflexivity | discriminate H].
Qed.

(** Trimming keeps an occurrence of a pattern that neither starts nor
    ends with white space. *)
Lemma includes_trim (pat s : jsstring) (p q : N) (mid : jsstring) :
  pat = p :: mid -> rev pat = q :: rev (removelast pat) ->
  is_ws p = false -> is_ws q = false ->
  includes pat s = true -> includes pat (trim s) = true.
Proof.
  intros -> R Hp Hq H. unfold trim, trimEnd.
  apply (includes_trimStart p mid s Hp) in H.
  apply includes_rev in H. rewrite R in H.
  apply (includes_trimStart q _ _ Hq) in H.
  apply includes_rev in H. rewrite <- R, rev_involutive in H. exact H.
Qed.

Lemma trim_infix (s : jsstring) :
  exists a b, s = a ++ trim s ++ b.
Proof.
  destruct (trimStart_suffix s) as (a & E & _).
  destruct (trimStart_suffix (rev (trimStart s))) as (b & E2 & _).
  exists a, (rev b). unfold trim, trimEnd.
  rewrite <- rev_app_distr, <- E2, rev_involutive. exact E.
Qed.

Lemma includes_of_trim (pat s : jsstring) :
  includes pat (trim s) = true -> includes pat s = true.
Proof.
  rewrite !includes_iff. intros (x & y & E).
  destruct (trim_infix s) as (a & b & S).
  exists (a ++ x), (y ++ b). rewrite S at 1. rewrite E, <- !app_assoc. reflexivity.
Qed.

Lemma startsWith_prefix (pat u v : jsstring) :
  List.length pat <= List.length u ->
  startsWith pat (u ++ v) = startsWith pat u.
Proof.
  revert u. induction pat as [|p pr IH]; intros u L; [reflexivity|].
  destruct u as [|c u]; [cbn in L; lia|].
  cbn [app startsWith]. rewrite IH; [reflexivity | cbn in L; lia].
Qed.

Lemma includes_short (pat t : jsstring) :
  List.length t < List.length pat -> includes pat t = false.
Proof.
  intros L. unfold includes. destruct (indexOf pat t) as [i|] eqn:E; [|reflexivity].
  apply indexOf_bound in E. lia.
Qed.

(** [indexOf] gives the first occurrence: the pattern does not occur
    in what comes before, even running over into the occurrence. *)
Lemma indexOf_first (pat s : jsstring) (i : nat) :
  pat <> [] ->
  indexOf pat s = Some i ->
  includes pat (firstn i s ++ removelast pat) = false.
Proof.
  intros Ne.
  assert (Lr : List.length pat = S (List.length (removelast pat))).
  { rewrite (app_removelast_last 0%N Ne) at 1. rewrite length_app. cbn. lia. }
  revert i. induction s as [|c r IH]; intros i H; cbn [indexOf] in H.
  - destruct (startsWith pat []); [|discriminate H]. injection H as <-.
    cbn [firstn app]. apply includes_short. lia.
  - destruct (startsWith pat (c :: r)) eqn:E.
    + injection H as <-. cbn [firstn app]. apply includes_short. lia.
    + destruct (indexOf pat r) as [j|] eqn:J; [|discriminate H].
      cbn [option_map] in H. injection H as <-.
      specialize (IH j eq_refl).
      cbn [firstn app]. unfold includes in *. cbn [indexOf].
      assert (P : startsWith pat (c :: firstn j r ++ removelast pat) = false).
      { assert (R : (firstn j r ++ removelast pat)
                      ++ [last pat 0%N] ++ skipn (j + List.length pat) r = r).
        { rewrite <- app_assoc. rewrite (app_assoc (removelast pat)).
          rewrite <- (app_removelast_last 0%N Ne).
          apply indexOf_firstn_skipn. exact J. }
        rewrite <- R in E.
        change (startsWith pat
                  ((c :: firstn j r ++ removelast pat)
                     ++ [last pat 0%N] ++ skipn (j + List.length pat) r) = false) in E.
        rewrite startsWith_prefix in E; [exact E|].
        cbn [List.length]. rewrite length_app. lia. }
      rewrite P. destruct (indexOf pat (firstn j r ++ removelast pat));
        [discriminate IH | reflexivity].
Qed.

Lemma SVG_WITH_XMLNS_parts :
  exists tail,
    SVG_WITH_XMLNS = lit "<svg " ++ lit "xmlns=" ++ tail
    /\ SVG_WITH_XMLNS = lit "<svg" ++ [32%N] ++ lit "xmlns=" ++ tail.
Proof. eexists. split; vm_compute; reflexivity. Qed.

(** X16: a content with [<svg] in it passes both checks.  When its
    trimmed form already has [xmlns=], that form goes on to the parser
    unchanged and nothing is noted; otherwise the first [<svg] of the
    trimmed form is replaced by the one with the attribute, and the
    addition is noted.  Either way what goes on has [xmlns=] and still
    has its [<svg]. *)
Theorem svg_gets_namespace (svgContent : jsstring) :
  includes (lit "<svg") svgContent = true ->
  (includes (lit "xmlns=") (trim svgContent) = true ->
     SVGIn3D_prepare svgContent = PrepOk (trim svgContent) false)
  /\ (includes (lit "xmlns=") (trim svgContent) = false ->
      exists before rest,
        trim svgContent = before ++ lit "<svg" ++ rest
        /\ includes (lit "<svg") (before ++ lit "<sv") = false
        /\ SVGIn3D_prepare svgContent
           = PrepOk (before ++ SVG_WITH_XMLNS ++ rest) true)
  /\ exists processed added,
       SVGIn3D_prepare svgContent = PrepOk processed added
       /\ includes (lit "xmlns=") processed = true
       /\ includes (lit "<svg") processed = true.
Proof.
  intros H. unfold SVGIn3D_prepare.
  assert (T : truthy (Some svgContent) = true).
  { destruct svgContent; [vm_compute in H; discriminate H | reflexivity]. }
  rewrite T, H. cbn [negb andb].
  assert (Ht : includes (lit "<svg") (trim svgContent) = true).
  { apply (includes_trim (lit "<svg") svgContent 60%N 103%N (lit "svg"));
      try reflexivity. exact H. }
  destruct (includes (lit "xmlns=") (trim svgContent)) eqn:X; cbn [negb].
  - split; [reflexivity|]. split; [discriminate|].
    exists (trim svgContent), false. repeat (apply conj); auto.
  - unfold replace. pose proof Ht as Ht'. unfold includes in Ht'.
    destruct (indexOf (lit "<svg") (trim svgContent)) as [i|] eqn:I; [|discriminate Ht'].
    destruct SVG_WITH_XMLNS_parts as (tl & P1 & P2).
    split; [discriminate|]. split.
    + intros _. exists (firstn i (trim svgContent)),
        (skipn (i + List.length (lit "<svg")) (trim svgContent)).
      split; [symmetry; apply indexOf_firstn_skipn; exact I|].
      split; [|reflexivity].
      apply (indexOf_first (lit "<svg") (trim svgContent) i); [discriminate | exact I].
    + eexists _, true. split; [reflexivity|]. split.
      * apply includes_iff. rewrite P1.
        exists (firstn i (trim svgContent) ++ lit "<svg "),
               (tl ++ skipn (i + List.length (lit "<svg")) (trim svgContent)).
        rewrite <- !app_assoc. reflexivity.
      * apply includes_iff. rewrite P2.
        exists (firstn i (trim svgContent)),
               (([32%N] ++ lit "xmlns=" ++ tl)
                  ++ skipn (i + List.length (lit "<svg")) (trim svgContent)).
        rewrite <- !app_assoc. reflexivity.
Qed.

(** A diagram that has its namespace already is only trimmed; one
    without gets it. *)
Lemma svg_gets_namespace_witness :
  SVGIn3D_prepare (sample_svg ++ [32%N]) = PrepOk sample_svg false
  /\ exists processed added,
       SVGIn3D_prepare (lit " <svg width='10'/> ") = PrepOk processed added
       /\ includes (lit "xmlns=") processed = true.
Proof.
  split.
  - exact (proj1 (svg_gets_namespace (sample_svg ++ [32%N]) eq_refl) eq_refl).
  - destruct (proj2 (proj2 (svg_gets_namespace (lit " <svg width='10'/> ") eq_refl)))
      as (processed & added & E & X & _).
    exists processed, added. split; [exact E | exact X].
Defined.

Lemma replace_absent (pat rep s : jsstring) :
  includes pat s = false -> replace pat rep s = s.
Proof.
  unfold includes, replace. destruct (indexOf pat s); [discriminate | reflexivity].
Qed.

(** X17: a content that passes the checks by its [<?xml] alone, with
    no [<svg] in it, goes on as it is, trimmed and without the
    attribute, although "Added xmlns attribute" is noted: the
    replacement finds nothing to replace. *)
Theorem xml_without_svg_is_left_alone (svgContent : jsstring) :
  includes (lit "<svg") svgContent = false ->
  includes (lit "<?xml") svgContent = true ->
  includes (lit "xmlns=") (trim svgContent) = false ->
  SVGIn3D_prepare svgContent = PrepOk (trim svgContent) true.
Proof.
  intros S X N. unfold SVGIn3D_prepare.
  assert (T : truthy (Some svgContent) = true).
  { destruct svgContent; [vm_compute in X; discriminate X | reflexivity]. }
  rewrite T, S, X, N. cbn [negb andb].
  rewrite replace_absent; [reflexivity|].
  destruct (includes (lit "<svg") (trim svgContent)) eqn:E; [|reflexivity].
  apply includes_of_trim in E. congruence.
Qed.

(** An upper-case root element. *)
Lemma xml_without_svg_is_left_alone_witness :
  SVGIn3D_prepare (lit "<?xml version='1.0'?><SVG/> ")
  = PrepOk (lit "<?xml version='1.0'?><SVG/>") true.
Proof.
  exact (xml_without_svg_is_left_alone (lit "<?xml version='1.0'?><SVG/> ")
           eq_refl eq_refl eq_refl).
Defined.

(** The second of two streams, which found the video element. *)
Lemma captureImage_releases_attached_witness :
  all_stopped [2] (run_handler captureImage camera_attached) = true
  /\ showCamera (run_handler captureImage camera_attached) = false.
Proof.
  exact (captureImage_releases_attached camera_attached [2] eq_refl).
Defined.
